(** * Provider fallback of the interview-practice application

    Shallow embedding of [AIEvaluationService] (services/ai/aiEvaluationService.ts):
    the two orchestration entry points [evaluateWithBestAvailable] and
    [generateContentWithBestAvailable], the read operations [hasApiKeys] and
    [getProviderStatus], and [forceProvider] / [resetFailedProviders].

    The class is a set of static methods working on the static state of
    [AIProviderManager]; that state is threaded explicitly here.  Console
    logging is left out; the two effects the orchestration can be observed by,
    provider client calls and limit warnings, are recorded in an event log.

    The handlers of the practice page (components/Practice/PracticeSession.tsx)
    that carry logic of their own follow: [addDebugLog], [fetchQuestion], the
    speech recognition callbacks, [toggleRecording] and [submitAnswer], each
    as the list of calls it makes on the values its closure holds. *)

From Stdlib Require Import ZArith String List Ascii DecimalString.
From stdpp Require Import base gmap list strings finite.
Import ListNotations.

Local Open Scope string_scope.
Local Open Scope list_scope.
Local Open Scope stdpp_scope.

(** ** Data model *)

(** The provider tags of [getProviderStatus] and of the dispatch [switch]. *)
Inductive ProviderIdentity := groq | openai | gemini.

#[global] Instance ProviderIdentity_eq_dec : EqDecision ProviderIdentity.
Proof. solve_decision. Defined.

#[global] Instance ProviderIdentity_finite : Finite ProviderIdentity.
Proof.
  refine {| enum := [groq; openai; gemini] |}.
  - compute_done.
  - intros p. destruct p; compute_done.
Defined.

(** Modelled from the spec: the [LimitInfo] attached to a rate-limit error
    ([LimitInfo {reason, retryAfter?}]); its declaration is not in the
    service file. *)
Record LimitInfo := { reason : string; retryAfter : option Z }.

(** A JavaScript error value as the service sees it ([error: any] in the
    [catch] blocks): its [message], and the optional [limitInfo] property, an
    object when it is there, so that the test [if (error.limitInfo)] is the
    test for its presence. *)
Record JsError := { message : string; limitInfo : option LimitInfo }.

(** [new Error(msg)]: no [limitInfo] property. *)
Definition Error (msg : string) : JsError :=
  {| message := msg; limitInfo := None |}.

(** Result of awaiting a promise: resolved with a value or rejected. *)
Inductive Completion (A : Type) :=
| Return (value : A)
| Throw (error : JsError).
Arguments Return {A} value.
Arguments Throw {A} error.

Definition failureOf {A} (c : Completion A) : option JsError :=
  match c with
  | Return _ => None
  | Throw e => Some e
  end.

(** Modelled from the spec: [EvaluationRequest] of ./types (question text,
    answer text, rating mode, evaluation type); the service only passes it on. *)
Inductive RatingMode := tough | lenient.
Inductive EvaluationType := simple | detailed.
Record EvaluationRequest := {
  question : string;
  answer : string;
  ratingMode : option RatingMode;
  evaluationType : option EvaluationType
}.

(** The argument type of [AIEvaluationService.forceProvider]:
    ['gemini' | 'auto' | null]. *)
Inductive ForceArg := force_gemini | force_auto | force_null.

(** Modelled from the spec: the argument of the registry's
    [forceProvider(identity | 'auto' | null)], any provider identity or one
    of the two values that restore automatic selection. *)
Inductive ForceTarget :=
| force_identity (identity : ProviderIdentity)
| force_target_auto
| force_target_null.

(** The service hands its argument on as it is. *)
Definition forceTargetOf (provider : ForceArg) : ForceTarget :=
  match provider with
  | force_gemini => force_identity gemini
  | force_auto => force_target_auto
  | force_null => force_target_null
  end.

(** One entry of [providerPriority]: [{ name, available }]. *)
Record Candidate := { name : ProviderIdentity; available : bool }.

(** [{ available, hasKey, failed }] of [getProviderStatus]. *)
Record ProviderStatus := { status_available : bool; hasKey : bool; failed : bool }.

(** The return type of [AIEvaluationService.hasApiKeys]: [{ gemini: boolean }]. *)
Module ApiKeys.
Record t := { gemini : bool }.
End ApiKeys.

(** ** The provider registry *)

Module AIProviderManager.

(** Modelled from the spec: the static state of [AIProviderManager], which
    is imported by the service but whose file is not part of the sources:
    the credential store, the process-wide FailedProviderSet and the
    forced-provider override. *)
Record state := {
  credentials : ProviderIdentity -> bool;
  failedProviders : gset ProviderIdentity;
  forcedProvider : option ProviderIdentity
}.

(** Modelled from the spec: [hasApiKeys() -> {providerIdentity: bool}],
    whether a credential is configured per provider. *)
Definition hasApiKeys (s : state) : ProviderIdentity -> bool :=
  credentials s.

(** Modelled from the spec: [getFailedProviders], the FailedProviderSet. *)
Definition getFailedProviders (s : state) : gset ProviderIdentity :=
  failedProviders s.

(** Modelled from the spec: [isProviderAvailable(identity)], true iff a
    credential is present and the identity is not in FailedProviderSet. *)
Definition isProviderAvailable (s : state) (identity : ProviderIdentity) : bool :=
  credentials s identity && negb (bool_decide (identity ∈ failedProviders s)).

(** Modelled from the spec: [markFailed(identity)] idempotently adds the
    identity to FailedProviderSet. *)
Definition markFailed (identity : ProviderIdentity) (s : state) : state :=
  {| credentials := credentials s;
     failedProviders := {[ identity ]} ∪ failedProviders s;
     forcedProvider := forcedProvider s |}.

(** Modelled from the spec: [resetFailedProviders()] clears
    FailedProviderSet entirely. *)
Definition resetFailedProviders (s : state) : state :=
  {| credentials := credentials s;
     failedProviders := ∅;
     forcedProvider := forcedProvider s |}.

(** Modelled from the spec: [forceProvider(identity | 'auto' | null)]; a
    specific identity sets the override, ['auto'] and [null] clear it. *)
Definition forceProvider (provider : ForceTarget) (s : state) : state :=
  {| credentials := credentials s;
     failedProviders := failedProviders s;
     forcedProvider :=
       match provider with
       | force_identity identity => Some identity
       | force_target_auto | force_target_null => None
       end |}.

(** Modelled from the spec: [getProviderStatus()], the snapshot
    [{available, hasKey, failed}] per provider. *)
Definition getProviderStatus (s : state) (identity : ProviderIdentity) : ProviderStatus :=
  {| status_available := isProviderAvailable s identity;
     hasKey := credentials s identity;
     failed := bool_decide (identity ∈ failedProviders s) |}.

End AIProviderManager.

(** ** Observable effects *)

(** What one orchestration call does to the outside: it awaits a provider
    client (the event keeps the rejection, if any), and it calls
    [AIProviderManager.showLimitWarning(limitInfo, remainingProviders)]. *)
Inductive Event :=
| ProviderCall (provider : ProviderIdentity) (failure : option JsError)
| LimitWarning (info : LimitInfo) (remainingProviders : list ProviderIdentity).

Record World := {
  manager : AIProviderManager.state;
  events : list Event
}.

(** A provider client is a static method of [AIProviderManager]: it may read
    and write the registry state, and resolves or rejects. *)
Definition Client (A : Type) : Type :=
  AIProviderManager.state -> Completion A * AIProviderManager.state.

(** [await client(...)] from the service, logged. *)
Definition invoke {A} (provider : ProviderIdentity) (client : Client A)
    (w : World) : Completion A * World :=
  let '(c, s') := client (manager w) in
  (c, {| manager := s'; events := events w ++ [ProviderCall provider (failureOf c)] |}).

(** Modelled from the spec: [showLimitWarning(limitInfo, remaining)] is a
    fire-and-forget notification that returns nothing and does not throw. *)
Definition showLimitWarning (info : LimitInfo)
    (remainingProviders : list ProviderIdentity) (w : World) : World :=
  {| manager := manager w;
     events := events w ++ [LimitWarning info remainingProviders] |}.

(** The error texts of the service. *)
Definition noProvidersForContent : string :=
  "No AI providers available. Please check your API keys configuration.".
Definition noProvidersForEvaluation : string :=
  "No AI providers available. Please add API keys from Groq, OpenAI, or Gemini in Settings.".
Definition allProvidersFailed (lastMessage : string) : string :=
  "All AI providers failed. Last error: " +:+ lastMessage.
Definition contentFellThrough : string :=
  "All AI providers failed for content generation.".
Definition evaluationFellThrough : string :=
  "Unexpected error: No AI providers available".

(** ** AIEvaluationService *)

(** The provider clients of [AIProviderManager] that the service awaits. *)
Class ProviderClients (EvaluationResponse : Type) := {
  evaluateWithGroq : EvaluationRequest -> Client EvaluationResponse;
  evaluateWithOpenAI : EvaluationRequest -> Client EvaluationResponse;
  evaluateWithGemini : EvaluationRequest -> Client EvaluationResponse;
  generateRawText : string -> ProviderIdentity -> Client string
}.

Section AIEvaluationService.

Context `{clients : ProviderClients EvaluationResponse}.

(** [static hasApiKeys(): { gemini: boolean }] *)
Definition hasApiKeys (w : World) : ApiKeys.t * World :=
  ({| ApiKeys.gemini := AIProviderManager.hasApiKeys (manager w) gemini |}, w).

(** [static forceProvider(provider)] *)
Definition forceProvider (provider : ForceArg) (w : World) : World :=
  {| manager := AIProviderManager.forceProvider (forceTargetOf provider) (manager w);
     events := events w |}.

(** [static getProviderStatus()] *)
Definition getProviderStatus (w : World) : (ProviderIdentity -> ProviderStatus) * World :=
  (AIProviderManager.getProviderStatus (manager w), w).

(** [static resetFailedProviders()] *)
Definition resetFailedProviders (w : World) : World :=
  {| manager := AIProviderManager.resetFailedProviders (manager w);
     events := events w |}.

(** *** generateContentWithBestAvailable *)

(** Lines 19-29: [availableKeys], [providerPriority] and its filter.
    [hasApiKeys] only reads, so the world goes on as it was. *)
Definition contentAvailableProviders (w : World) : list Candidate :=
  let availableKeys := fst (hasApiKeys w) in
  let providerPriority :=
    [ {| name := gemini;
         available := ApiKeys.gemini availableKeys
                      && AIProviderManager.isProviderAvailable (manager w) gemini |} ] in
  List.filter (fun p => available p) providerPriority.

(** The [for] loop of lines 38-64.  [pending] is the part of
    [availableProviders] from index [i] on, so the loop test
    [i < availableProviders.length] is [pending] being non-empty and
    [availableProviders[i]] is its head.  [None] is the loop running to its
    end; [Some] is a [return] or [throw] from the body. *)
Fixpoint contentLoop (prompt : string) (availableProviders pending : list Candidate)
    (i : nat) (w : World) : option (Completion string) * World :=
  match pending with
  | [] => (None, w)
  | provider :: pending' =>
      let remainingProviders := map name (drop (i + 1) availableProviders) in
      match invoke (name provider) (generateRawText prompt (name provider)) w with
      | (Return content, w1) => (Some (Return content), w1)
      | (Throw error, w1) =>
          let w2 :=
            match limitInfo error with
            | Some info => showLimitWarning info remainingProviders w1
            | None => w1
            end in
          if (Z.of_nat i =? Z.of_nat (length availableProviders) - 1)%Z
          then (Some (Throw (Error (allProvidersFailed (message error)))), w2)
          else contentLoop prompt availableProviders pending' (S i) w2
      end
  end.

Definition generateContentWithBestAvailable (prompt : string) (w : World)
    : Completion string * World :=
  let availableProviders := contentAvailableProviders w in
  if (length availableProviders =? 0)%nat
  then (Throw (Error noProvidersForContent), w)
  else
    match contentLoop prompt availableProviders availableProviders 0 w with
    | (Some c, w') => (c, w')
    | (None, w') => (Throw (Error contentFellThrough), w')
    end.

(** *** evaluateWithBestAvailable *)

(** Lines 71-85. *)
Definition evaluationAvailableProviders (w : World) : list Candidate :=
  let availableKeys := fst (hasApiKeys w) in
  let providerPriority :=
    [ {| name := gemini;
         available := ApiKeys.gemini availableKeys
                      && AIProviderManager.isProviderAvailable (manager w) gemini |} ] in
  List.filter (fun p => available p) providerPriority.

(** The [switch (provider.name)] of lines 102-109. *)
Definition evaluateSwitch (request : EvaluationRequest) (provider : ProviderIdentity)
    : Client EvaluationResponse :=
  match provider with
  | groq => evaluateWithGroq request
  | openai => evaluateWithOpenAI request
  | gemini => evaluateWithGemini request
  end.

(** The [for] loop of lines 95-127, read as [contentLoop]. *)
Fixpoint evaluationLoop (request : EvaluationRequest)
    (availableProviders pending : list Candidate) (i : nat) (w : World)
    : option (Completion EvaluationResponse) * World :=
  match pending with
  | [] => (None, w)
  | provider :: pending' =>
      let remainingProviders := map name (drop (i + 1) availableProviders) in
      match invoke (name provider) (evaluateSwitch request (name provider)) w with
      | (Return response, w1) => (Some (Return response), w1)
      | (Throw error, w1) =>
          let w2 :=
            match limitInfo error with
            | Some info => showLimitWarning info remainingProviders w1
            | None => w1
            end in
          if (Z.of_nat i =? Z.of_nat (length availableProviders) - 1)%Z
          then (Some (Throw (Error (allProvidersFailed (message error)))), w2)
          else evaluationLoop request availableProviders pending' (S i) w2
      end
  end.

Definition evaluateWithBestAvailable (request : EvaluationRequest) (w : World)
    : Completion EvaluationResponse * World :=
  let availableProviders := evaluationAvailableProviders w in
  if (length availableProviders =? 0)%nat
  then (Throw (Error noProvidersForEvaluation), w)
  else
    match evaluationLoop request availableProviders availableProviders 0 w with
    | (Some c, w') => (c, w')
    | (None, w') => (Throw (Error evaluationFellThrough), w')
    end.

End AIEvaluationService.

(** ** The algorithm in the words of the specification *)

(** The three ways an orchestration call ends (sections 4.2 and 7). *)
Inductive Outcome (A : Type) :=
| Success (response : A)
| NoProvidersAvailable
| AllProvidersFailed (lastMessage : string).
Arguments Success {A} response.
Arguments NoProvidersAvailable {A}.
Arguments AllProvidersFailed {A} lastMessage.

(** The static configured priority order. *)
Definition staticPriority : list ProviderIdentity := [gemini].

(** Step 1 without an override: the static order filtered by availability. *)
Definition specSelect (s : AIProviderManager.state) : list ProviderIdentity :=
  List.filter (AIProviderManager.isProviderAvailable s) staticPriority.


(** The notification of step 3: only for an error that carries [LimitInfo]. *)
Definition notifyLimit (error : JsError) (remaining : list ProviderIdentity)
    (w : World) : World :=
  match limitInfo error with
  | Some info => showLimitWarning info remaining w
  | None => w
  end.

(** Step 3, from a candidate and the candidates after it. *)
Fixpoint specFallback {A} (client : ProviderIdentity -> Client A)
    (candidate : ProviderIdentity) (remaining : list ProviderIdentity)
    (w : World) {struct remaining} : Outcome A * World :=
  match invoke candidate (client candidate) w with
  | (Return response, w1) => (Success response, w1)
  | (Throw error, w1) =>
      let w2 := notifyLimit error remaining w1 in
      match remaining with
      | [] => (AllProvidersFailed (message error), w2)
      | next :: later => specFallback client next later w2
      end
  end.

(** Steps 2 and 3 on a computed candidate list. *)
Definition specBestAvailable {A} (client : ProviderIdentity -> Client A)
    (candidates : list ProviderIdentity) (w : World) : Outcome A * World :=
  match candidates with
  | [] => (NoProvidersAvailable, w)
  | first :: others => specFallback client first others w
  end.

(** How an outcome reaches the caller of the service: a response, or an
    [Error] with the text of the entry point. *)
Definition completionOf {A} (noProviders : string) (o : Outcome A) : Completion A :=
  match o with
  | Success response => Return response
  | NoProvidersAvailable => Throw (Error noProviders)
  | AllProvidersFailed lastMessage => Throw (Error (allProvidersFailed lastMessage))
  end.

(** ** Reading the event log *)

(** The provider attempts of a log, in order, each with its rejection. *)
Fixpoint attemptsOf (evs : list Event) : list (ProviderIdentity * option JsError) :=
  match evs with
  | [] => []
  | ProviderCall provider failure :: evs' => (provider, failure) :: attemptsOf evs'
  | LimitWarning _ _ :: evs' => attemptsOf evs'
  end.

Definition attemptFailed (a : ProviderIdentity * option JsError) : Prop :=
  is_Some (snd a).

(** The warning an attempt calls for: one, when it was rejected with
    [LimitInfo]; none otherwise. *)
Definition warningFor (failure : option JsError)
    (remaining : list ProviderIdentity) : list Event :=
  match failure with
  | Some error =>
      match limitInfo error with
      | Some info => [LimitWarning info remaining]
      | None => []
      end
  | None => []
  end.

(** The log that a run over [candidates] with the given attempts leaves:
    every attempt followed by its warning, which names the candidates after
    the attempted one. *)
Fixpoint expectedEvents (candidates : list ProviderIdentity)
    (attempts : list (ProviderIdentity * option JsError)) : list Event :=
  match attempts with
  | [] => []
  | (provider, failure) :: more =>
      ProviderCall provider failure
        :: warningFor failure (tail candidates)
        ++ expectedEvents (tail candidates) more
  end.

(** ** Candidates rejected in turn *)


(** ** Sample registries and clients *)

Definition sampleRequest : EvaluationRequest :=
  {| question := "Tell me about yourself";
     answer := "I build compilers";
     ratingMode := Some lenient;
     evaluationType := Some simple |}.

Definition geminiKeyOnly (p : ProviderIdentity) : bool :=
  match p with
  | gemini => true
  | _ => false
  end.

(** A credential for gemini, nothing failed, no override. *)
Definition readyWorld : World :=
  {| manager := {| AIProviderManager.credentials := geminiKeyOnly;
                   AIProviderManager.failedProviders := ∅;
                   AIProviderManager.forcedProvider := None |};
     events := [] |}.

(** No credential at all. *)
Definition noKeyWorld : World :=
  {| manager := {| AIProviderManager.credentials := fun _ => false;
                   AIProviderManager.failedProviders := ∅;
                   AIProviderManager.forcedProvider := None |};
     events := [] |}.

(** Modelled from the spec: a provider client as the external interface
    describes it, rejecting with a non-limit error and leaving the registry
    alone. *)
Definition timeoutClient {A} : Client A :=
  fun s => (Throw (Error "timeout"), s).

Definition quotaInfo : LimitInfo :=
  {| reason := "quota exceeded"; retryAfter := Some 60%Z |}.

(** A client rejecting with [LimitInfo] attached. *)
Definition quotaClient {A} : Client A :=
  fun s => (Throw {| message := "429"; limitInfo := Some quotaInfo |}, s).

(** A client that resolves. *)
Definition answeringClient {A} (a : A) : Client A :=
  fun s => (Return a, s).

Definition timeoutClients : ProviderClients string :=
  {| evaluateWithGroq := fun _ => timeoutClient;
     evaluateWithOpenAI := fun _ => timeoutClient;
     evaluateWithGemini := fun _ => timeoutClient;
     generateRawText := fun _ _ => timeoutClient |}.

Definition quotaClients : ProviderClients string :=
  {| evaluateWithGroq := fun _ => quotaClient;
     evaluateWithOpenAI := fun _ => quotaClient;
     evaluateWithGemini := fun _ => quotaClient;
     generateRawText := fun _ _ => quotaClient |}.

Definition answeringClients : ProviderClients string :=
  {| evaluateWithGroq := fun _ => answeringClient "groq says 7";
     evaluateWithOpenAI := fun _ => answeringClient "openai says 7";
     evaluateWithGemini := fun _ => answeringClient "gemini says 7";
     generateRawText := fun _ _ => answeringClient "generated" |}.

(** groq is rate limited, openai answers, gemini would time out. *)
Definition mixedClients : ProviderClients string :=
  {| evaluateWithGroq := fun _ => quotaClient;
     evaluateWithOpenAI := fun _ => answeringClient "openai says 7";
     evaluateWithGemini := fun _ => timeoutClient;
     generateRawText := fun _ p =>
       match p with
       | groq => quotaClient
       | openai => answeringClient "generated by openai"
       | gemini => timeoutClient
       end |}.


(** Credentials for groq and openai, none for gemini. *)
Definition otherKeysWorld : World :=
  {| manager := {| AIProviderManager.credentials := fun p => negb (geminiKeyOnly p);
                   AIProviderManager.failedProviders := ∅;
                   AIProviderManager.forcedProvider := None |};
     events := [] |}.

(** Three candidates, as the loop would see them with more providers
    configured. *)
Definition threeCandidates : list Candidate :=
  [ {| name := groq; available := true |};
    {| name := openai; available := true |};
    {| name := gemini; available := true |} ].

(** ** The practice session page *)

(** Strings of the page (components/Practice/PracticeSession.tsx) are kept as
    JavaScript has them, sequences of UTF-16 code units, since [trim] and
    [length] work on those. *)
Abbreviation JsString := (list N).

(** An ASCII string literal of the source. *)
Definition js (s : string) : JsString :=
  map N_of_ascii (list_ascii_of_string s).

(** [`${n}`] for an integer-valued number. *)
Definition decimal (n : Z) : JsString :=
  js (NilZero.string_of_int (Z.to_int n)).

(** WhiteSpace and LineTerminator of ECMAScript, all in the basic plane. *)
Definition isWhiteSpace (c : N) : bool :=
  ((c =? 0x9) || (c =? 0xA) || (c =? 0xB) || (c =? 0xC) || (c =? 0xD)
   || (c =? 0x20) || (c =? 0xA0) || (c =? 0x1680)
   || ((0x2000 <=? c) && (c <=? 0x200A))
   || (c =? 0x2028) || (c =? 0x2029) || (c =? 0x202F) || (c =? 0x205F)
   || (c =? 0x3000) || (c =? 0xFEFF))%N.

Fixpoint trimStart (s : JsString) : JsString :=
  match s with
  | [] => []
  | c :: s' => if isWhiteSpace c then trimStart s' else s
  end.

Definition trimEnd (s : JsString) : JsString :=
  rev (trimStart (rev s)).

(** [String.prototype.trim]. *)
Definition trim (s : JsString) : JsString :=
  trimEnd (trimStart s).

(** Truthiness of a string: it is not empty. *)
Definition truthy (s : JsString) : bool :=
  match s with
  | [] => false
  | _ :: _ => true
  end.

Module PracticeSession.

(** The [type] parameter of [addDebugLog]. *)
Inductive LogType := info | success | error | warning.

(** The user of [useAuth]: the page reads its [id]. *)
Module User.
Record t := { id : JsString }.
End User.

(** Modelled from the page's uses: a [Question] of data/questions, with the
    fields the page reads. *)
Module Question.
Record t := {
  id : JsString;
  title : JsString;
  description : JsString;
  category : JsString;
  difficulty : JsString;
  tags : option (list JsString)
}.
End Question.

(** The result of [TokenEstimator.canEvaluate]. *)
Module TokenCheck.
Record t := { canEvaluate : bool; message : JsString }.
End TokenCheck.

(** [responseData] of [submitAnswer] (lines 402-417). *)
Module ResponseData.
Record t := {
  id : JsString;
  user_id : JsString;
  question_id : JsString;
  answer_text : JsString;
  image_urls : list JsString;
  response_time_seconds : Z;
  rating_mode : RatingMode;
  selected_provider : ProviderIdentity;
  evaluation_type : EvaluationType;
  proctoring_enabled : bool;
  proctoring_type : JsString;
  violations : list JsString;
  presence_report : option JsString;
  created_at : JsString
}.
End ResponseData.

(** The placeholder evaluation handed to [saveEvaluation] (lines 446-457). *)
Module InitialEvaluation.
Record t := {
  clarity_score : Z;
  relevance_score : Z;
  critical_thinking_score : Z;
  thoroughness_score : Z;
  overall_score : Z;
  feedback_text : JsString;
  strengths : list JsString;
  improvements : list JsString;
  rating_mode : RatingMode;
  evaluation_type : EvaluationType
}.
End InitialEvaluation.

(** What [localStorage.setItem] is given, before [JSON.stringify]. *)
Inductive Stored :=
| StoredResponse (responseData : ResponseData.t)
| StoredQuestion (question : Question.t).

(** The calls a handler of the page makes, in order.  A call that can throw
    keeps what it threw. *)
Inductive Action :=
| AddDebugLog (message : JsString) (type : LogType)
| SetQuestion (question : Question.t)
| SetLoading (value : bool)
| SetSubmitting (value : bool)
| SetIsSubmissionLocked (value : bool)
| SetIsRecording (value : bool)
| AppendToAnswer (suffix : JsString)
| SetLastTranscript (transcript : JsString)
| RecognitionStart (thrown : option JsString)
| RecognitionStop (thrown : option JsString)
| ClearTimeout (timer : N)
| ForceProvider (provider : ForceArg)
| LocalStorageSetItem (key : JsString) (value : Stored) (thrown : option JsString)
| SaveEvaluation (userId questionId title category answerText : JsString)
    (evaluation : InitialEvaluation.t) (responseTimeSeconds : Z)
    (thrown : option JsString)
| Navigate (path : JsString).

(** The state, context and refs of the component that the handlers read. *)
Record State := {
  user : option User.t;
  question : option Question.t;
  answer : JsString;
  isRecording : bool;
  loading : bool;
  submitting : bool;
  startTime : Z;
  hasRecognition : bool;
  debugInfo : list JsString;
  ratingMode : RatingMode;
  evaluationType : EvaluationType;
  isSubmissionLocked : bool;
  lastTranscript : JsString
}.

(** *** addDebugLog *)

Inductive Toast :=
| ToastError (message : JsString)
| ToastSuccess (message : JsString)
| ToastWithIcon (message icon : JsString).

(** [`[${timestamp}] ${message}`] *)
Definition logMessage (timestamp message : JsString) : JsString :=
  js "[" ++ timestamp ++ js "] " ++ message.

(** The updater [prev => [...prev.slice(-4), logMessage]]. *)
Definition pushDebugInfo (line : JsString) (prev : list JsString) : list JsString :=
  drop (length prev - 4) prev ++ [line].

(** The warning sign with its variation selector. *)
Definition warningIcon : JsString := [0x26A0; 0xFE0F]%N.

Definition toastFor (message : JsString) (type : LogType) : list Toast :=
  match type with
  | error => [ToastError message]
  | success => [ToastSuccess message]
  | warning => [ToastWithIcon message warningIcon]
  | info => []
  end.

(** [addDebugLog(message, type)] (lines 106-119) on the debug lines and the
    toasts shown, without its console line, with
    the [toLocaleTimeString()] it read. *)
Definition addDebugLog (timestamp message : JsString) (type : LogType)
    (lines : list JsString) (toasts : list Toast) : list JsString * list Toast :=
  (pushDebugInfo (logMessage timestamp message) lines, toasts ++ toastFor message type).

(** Logging a run of messages, each with its own clock reading. *)
Fixpoint addDebugLogs (entries : list (JsString * JsString * LogType))
    (lines : list JsString) (toasts : list Toast) : list JsString * list Toast :=
  match entries with
  | [] => (lines, toasts)
  | (timestamp, message, type) :: more =>
      let '(lines', toasts') := addDebugLog timestamp message type lines toasts in
      addDebugLogs more lines' toasts'
  end.

(** *** Scripts of calls *)

(** A piece of handler code: the calls it made, and either the message of
    what it threw or its value. *)
Definition Script (A : Type) : Type := list Action * (JsString + A).

#[global] Instance script_ret : MRet Script :=
  fun A a => ([], inr a).

#[global] Instance script_bind : MBind Script :=
  fun A B k m =>
    match m with
    | (calls, inl thrown) => (calls, inl thrown)
    | (calls, inr a) => let '(calls', r) := k a in (calls ++ calls', r)
    end.

(** A call that does not throw. *)
Definition call (a : Action) : Script unit := ([a], inr tt).

(** A call that throws when its outcome says so. *)
Definition callThrowing (a : option JsString → Action) (thrown : option JsString)
    : Script unit :=
  ([a thrown], match thrown with Some t => inl t | None => inr tt end).

(** [try { body } catch (e) { handler }] *)
Definition tryCatch {A} (body : Script A) (handler : JsString → Script A) : Script A :=
  match body with
  | (calls, inl thrown) => let '(calls', r) := handler thrown in (calls ++ calls', r)
  | (calls, inr a) => (calls, inr a)
  end.

(** [try { body } finally { last }], for a [last] that does not throw. *)
Definition tryFinally {A} (body : Script A) (last : list Action) : Script A :=
  (body.1 ++ last, body.2).

(** *** fetchQuestion *)

(** Lines 146-163, with what [getQuestionById] did: it threw (the text is
    the thrown value in a template string), or returned a question or
    [undefined]. *)
Definition fetchQuestion (getQuestionById : JsString → JsString + option Question.t)
    (questionId : JsString) : list Action :=
  (tryFinally
     (tryCatch
        (call (AddDebugLog (js "Fetching question with ID: " ++ questionId) info);;
         foundQuestion ← ([], getQuestionById questionId);
         match foundQuestion with
         | None =>
             call (AddDebugLog (js "Question not found: " ++ questionId) error);;
             call (Navigate (js "/dashboard"))
         | Some found =>
             call (AddDebugLog (js "Question found: " ++ Question.title found) success);;
             call (SetQuestion found)
         end)
        (fun thrown =>
           call (AddDebugLog (js "Error fetching question: " ++ thrown) error);;
           call (Navigate (js "/dashboard"))))
     [SetLoading false]).1.

(** *** Speech recognition *)

(** One entry of [event.results]: [isFinal] and [[0].transcript]. *)
Record SpeechRecognitionResult := { isFinal : bool; transcript : JsString }.

Record SpeechRecognitionEvent := {
  resultIndex : nat;
  results : list SpeechRecognitionResult
}.

(** The loop of lines 199-204 from index [resultIndex] on. *)
Fixpoint finalTranscript (pending : list SpeechRecognitionResult)
    (collected : JsString) : JsString :=
  match pending with
  | [] => collected
  | result :: pending' =>
      finalTranscript pending'
        (if isFinal result then collected ++ transcript result else collected)
  end.

(** [recognition.onresult] after its first statement (lines 199-211): the
    transcript, the ref and the answer. *)
Definition onresult (event : SpeechRecognitionEvent) (st : State) : list Action :=
  let heard := finalTranscript (drop (resultIndex event) (results event)) [] in
  if truthy heard && negb (bool_decide (heard = lastTranscript st))
  then [ SetLastTranscript heard;
         AppendToAnswer (js " " ++ heard);
         AddDebugLog (js "Transcript: " ++ heard) success ]
  else [].

(** The whole of [recognition.onresult] (lines 193-211).  Its first statement
    clears the restart timer when [recognitionTimeout] holds one, which it
    does from the first [onstart] on (a timer handle is never 0). *)
Definition onresultHandler (recognitionTimeout : option N)
    (event : SpeechRecognitionEvent) (st : State) : list Action :=
  match recognitionTimeout with
  | Some timer => [ClearTimeout timer]
  | None => []
  end ++ onresult event st.

(** The [switch] of [recognition.onerror] (lines 223-255): the message and
    the type it is logged with. *)
Definition speechErrorReport (code : JsString) : JsString * LogType :=
  if bool_decide (code = js "network") then
    (js "Network error: Please check your internet connection and try again. This can happen due to firewall or proxy settings.", error)
  else if bool_decide (code = js "not-allowed") then
    (js "Microphone access denied. Please allow microphone permissions and refresh the page.", error)
  else if bool_decide (code = js "no-speech") then
    (js "No speech detected. Please speak clearly and try again.", warning)
  else if bool_decide (code = js "audio-capture") then
    (js "Audio capture error. Please check your microphone and try again.", error)
  else if bool_decide (code = js "service-not-allowed") then
    (js "Speech recognition service not allowed. Please check your browser settings.", error)
  else if bool_decide (code = js "bad-grammar") then
    (js "Grammar error in speech recognition.", warning)
  else if bool_decide (code = js "language-not-supported") then
    (js "Language not supported. Please try with English.", error)
  else
    (js "Speech recognition error: " ++ code ++ js ". Please try again.", error).

(** [toggleRecording] (lines 323-350), with what [recognition.stop()] or
    [recognition.start()] threw, if anything. *)
Definition toggleRecording (thrown : option JsString) (st : State) : list Action :=
  if negb (hasRecognition st)
  then [AddDebugLog (js "Speech recognition not supported in this browser") error]
  else if isRecording st
  then
    (tryCatch
       (callThrowing RecognitionStop thrown;;
        call (SetIsRecording false);;
        call (AddDebugLog (js "Recording stopped") info))
       (fun _ =>
          call (AddDebugLog (js "Error stopping recording") error);;
          call (SetIsRecording false))).1
  else
    [SetLastTranscript []]
    ++ (tryCatch
          (callThrowing RecognitionStart thrown;;
           call (SetIsRecording true);;
           call (AddDebugLog (js "Recording started") info))
          (fun _ =>
             call (AddDebugLog
                     (js "Error starting recording. Please check microphone permissions.")
                     error);;
             call (SetIsRecording false))).1.

(** *** submitAnswer *)

(** What the outside answers during one [submitAnswer]. *)
Record SubmitEnv := {
  (** [TokenEstimator.canEvaluate(question.description, answer, 'gemini')] *)
  canEvaluate : JsString → JsString → TokenCheck.t;
  (** the [message] of what [recognition.stop()] threw *)
  stopThrown : option JsString;
  (** [Date.now()] of line 393 and of line 403 *)
  nowForResponseTime : Z;
  nowForId : Z;
  (** [Math.random().toString(36).substr(2, 9)] *)
  randomSuffix : JsString;
  (** [new Date().toISOString()] *)
  isoNow : JsString;
  (** the [message] of what each [localStorage.setItem] threw *)
  responseItemThrown : option JsString;
  questionItemThrown : option JsString;
  (** what [saveEvaluation] rejected with, as a template string shows it *)
  saveThrown : option JsString
}.

Definition ratingModeText (mode : RatingMode) : JsString :=
  match mode with
  | tough => js "tough"
  | lenient => js "lenient"
  end.

Definition evaluationTypeText (type : EvaluationType) : JsString :=
  match type with
  | simple => js "simple"
  | detailed => js "detailed"
  end.

(** The rocket of line 383, as its surrogate pair. *)
Definition rocket : JsString := [0xD83D; 0xDE80]%N.

(** Lines 402-417. *)
Definition responseDataOf (env : SubmitEnv) (st : State) (user : User.t)
    (question : Question.t) (evalType : EvaluationType) (responseTimeSeconds : Z)
    : ResponseData.t :=
  {| ResponseData.id :=
       js "response_" ++ decimal (nowForId env) ++ js "_" ++ randomSuffix env;
     ResponseData.user_id := User.id user;
     ResponseData.question_id := Question.id question;
     ResponseData.answer_text := trim (answer st);
     ResponseData.image_urls := [];
     ResponseData.response_time_seconds := responseTimeSeconds;
     ResponseData.rating_mode := ratingMode st;
     ResponseData.selected_provider := gemini;
     ResponseData.evaluation_type := evalType;
     ResponseData.proctoring_enabled := false;
     ResponseData.proctoring_type := js "none";
     ResponseData.violations := [];
     ResponseData.presence_report := None;
     ResponseData.created_at := isoNow env |}.

(** Lines 445-456. *)
Definition initialEvaluationOf (st : State) (evalType : EvaluationType)
    : InitialEvaluation.t :=
  {| InitialEvaluation.clarity_score := 7;
     InitialEvaluation.relevance_score := 7;
     InitialEvaluation.critical_thinking_score := 7;
     InitialEvaluation.thoroughness_score := 7;
     InitialEvaluation.overall_score := 7;
     InitialEvaluation.feedback_text := js "Saving initial evaluation...";
     InitialEvaluation.strengths := [js "Initial save"];
     InitialEvaluation.improvements := [js "Will be updated with real evaluation"];
     InitialEvaluation.rating_mode := ratingMode st;
     InitialEvaluation.evaluation_type := evalType |}.

(** The [try] block of lines 385-469; the user is known to be there, so the
    test [if (user)] of line 437 is passed. *)
Definition submitBody (env : SubmitEnv) (st : State) (user : User.t)
    (question : Question.t) (evalType : EvaluationType) : Script unit :=
  (if isRecording st && hasRecognition st
   then callThrowing RecognitionStop (stopThrown env);; call (SetIsRecording false)
   else mret tt);;
  let responseTimeSeconds := ((nowForResponseTime env - startTime st) / 1000)%Z in
  call (AddDebugLog (js "Response time: " ++ decimal responseTimeSeconds ++ js " seconds") info);;
  call (ForceProvider force_gemini);;
  call (AddDebugLog (js "Using Gemini provider") info);;
  let responseData := responseDataOf env st user question evalType responseTimeSeconds in
  call (AddDebugLog (js "Prepared response data") info);;
  call (AddDebugLog (js "User ID: " ++ User.id user) info);;
  call (AddDebugLog (js "Question ID: " ++ Question.id question) info);;
  call (AddDebugLog
          (js "Answer length: " ++ decimal (Z.of_nat (length (trim (answer st))))
           ++ js " characters") info);;
  call (AddDebugLog (js "Rating mode: " ++ ratingModeText (ratingMode st)) info);;
  call (AddDebugLog (js "Provider: Gemini") info);;
  call (AddDebugLog (js "Evaluation type: " ++ evaluationTypeText evalType) info);;
  call (AddDebugLog (js "Storing response locally...") info);;
  callThrowing (LocalStorageSetItem (js "current_response") (StoredResponse responseData))
    (responseItemThrown env);;
  callThrowing (LocalStorageSetItem (js "current_question") (StoredQuestion question))
    (questionItemThrown env);;
  call (AddDebugLog
          (js "Response stored locally with ID: " ++ ResponseData.id responseData) success);;
  tryCatch
    (callThrowing
       (SaveEvaluation (User.id user) (Question.id question) (Question.title question)
          (Question.category question) (trim (answer st))
          (initialEvaluationOf st evalType) responseTimeSeconds)
       (saveThrown env);;
     call (AddDebugLog (js "Initial evaluation saved to database") success))
    (fun dbError => call (AddDebugLog (js "Database save failed: " ++ dbError) error));;
  call (AddDebugLog (js "Navigating to evaluation page...") info);;
  call (Navigate (js "/evaluation/" ++ ResponseData.id responseData)).

(** [submitAnswer(evalType)] (lines 353-478) on the values its closure holds. *)
Definition submitAnswer (env : SubmitEnv) (st : State) (evalType : EvaluationType)
    : list Action :=
  if negb (truthy (trim (answer st)))
  then [AddDebugLog (js "Please provide an answer") error]
  else
    match user st, question st with
    | Some user, Some question =>
        if submitting st || isSubmissionLocked st
        then [AddDebugLog (js "Submission already in progress") info]
        else
          let tokenCheck := canEvaluate env (Question.description question) (answer st) in
          if negb (TokenCheck.canEvaluate tokenCheck)
          then [AddDebugLog (TokenCheck.message tokenCheck) error]
          else
            [ AddDebugLog (TokenCheck.message tokenCheck) info;
              SetSubmitting true;
              SetIsSubmissionLocked true;
              AddDebugLog
                (rocket ++ js " Starting submission with " ++ ratingModeText (ratingMode st)
                 ++ js " rating mode, Gemini provider, and " ++ evaluationTypeText evalType
                 ++ js " evaluation...") info ]
            ++ (tryFinally
                  (tryCatch (submitBody env st user question evalType)
                     (fun thrown =>
                        call (AddDebugLog (js "Submission failed: " ++ thrown) error);;
                        call (SetIsSubmissionLocked false)))
                  [SetSubmitting false]).1
    | _, _ => [AddDebugLog (js "Missing user or question data") error]
    end.

(** The submit button (lines 709-710): its [disabled] attribute, and its
    [onClick]. *)
Definition submitDisabled (st : State) : bool :=
  submitting st || negb (truthy (trim (answer st))) || isSubmissionLocked st.

Definition onSubmitClick (env : SubmitEnv) (st : State) : list Action :=
  if negb (isSubmissionLocked st)
  then submitAnswer env st (evaluationType st)
  else [].

(** *** The state after a handler *)

(** One call applied to the component: the setters, the ref write and the
    updater of [addDebugLog], which reads the clock. *)
Definition applyAction (timestamp : JsString) (a : Action) (st : State) : State :=
  {| user := user st;
     question := match a with SetQuestion q => Some q | _ => question st end;
     answer := match a with AppendToAnswer suffix => answer st ++ suffix | _ => answer st end;
     isRecording := match a with SetIsRecording b => b | _ => isRecording st end;
     loading := match a with SetLoading b => b | _ => loading st end;
     submitting := match a with SetSubmitting b => b | _ => submitting st end;
     startTime := startTime st;
     hasRecognition := hasRecognition st;
     debugInfo :=
       match a with
       | AddDebugLog message _ => pushDebugInfo (logMessage timestamp message) (debugInfo st)
       | _ => debugInfo st
       end;
     ratingMode := ratingMode st;
     evaluationType := evaluationType st;
     isSubmissionLocked :=
       match a with SetIsSubmissionLocked b => b | _ => isSubmissionLocked st end;
     lastTranscript :=
       match a with SetLastTranscript t => t | _ => lastTranscript st end |}.

(** The calls of a handler applied in order; [clock k] is the time of day at
    the [k]-th call. *)
Fixpoint applyActions (clock : nat → JsString) (k : nat) (actions : list Action)
    (st : State) : State :=
  match actions with
  | [] => st
  | a :: more => applyActions clock (S k) more (applyAction (clock k) a st)
  end.

End PracticeSession.

(** ** Sample sessions *)

Module SessionSamples.
Import PracticeSession.

Definition sampleUser : User.t := {| User.id := js "user-1" |}.

Definition sampleQuestion : Question.t :=
  {| Question.id := js "q-7";
     Question.title := js "Tell me about yourself";
     Question.description := js "Introduce yourself to the interviewer.";
     Question.category := js "behavioral";
     Question.difficulty := js "easy";
     Question.tags := Some [js "intro"] |}.

(** The page with a question loaded and the given answer typed. *)
Definition readyState (typed : JsString) : State :=
  {| user := Some sampleUser;
     question := Some sampleQuestion;
     answer := typed;
     isRecording := false;
     loading := false;
     submitting := false;
     startTime := 1000;
     hasRecognition := true;
     debugInfo := [];
     ratingMode := lenient;
     evaluationType := simple;
     isSubmissionLocked := false;
     lastTranscript := [] |}.

(** Nothing throws and the token check passes. *)
Definition quietEnv : SubmitEnv :=
  {| canEvaluate := fun _ _ =>
       {| TokenCheck.canEvaluate := true; TokenCheck.message := js "Within token limits" |};
     stopThrown := None;
     nowForResponseTime := 43500;
     nowForId := 43501;
     randomSuffix := js "k3j9x0a1b";
     isoNow := js "2025-01-01T00:00:43.501Z";
     responseItemThrown := None;
     questionItemThrown := None;
     saveThrown := None |}.

(** The storage is full when the question is written. *)
Definition fullStorageEnv : SubmitEnv :=
  {| canEvaluate := canEvaluate quietEnv;
     stopThrown := None;
     nowForResponseTime := 43500;
     nowForId := 43501;
     randomSuffix := js "k3j9x0a1b";
     isoNow := js "2025-01-01T00:00:43.501Z";
     responseItemThrown := None;
     questionItemThrown := Some (js "The quota has been exceeded.");
     saveThrown := None |}.

Definition noon (k : nat) : JsString := js "12:00:00 PM".

(** Two final results and an interim one. *)
Definition sampleSpeech : SpeechRecognitionEvent :=
  {| resultIndex := 0;
     results := [ {| isFinal := true; transcript := js "hello" |};
                  {| isFinal := false; transcript := js " wor" |};
                  {| isFinal := true; transcript := js " there" |} ] |}.

End SessionSamples.

(** * Properties *)

(** ** Effects of the elementary steps *)

Lemma invoke_unfold {A} (provider : ProviderIdentity) (client : Client A) (w : World) :
  invoke provider client w =
  ((client (manager w)).1,
   {| manager := (client (manager w)).2;
      events := events w ++ [ProviderCall provider (failureOf (client (manager w)).1)] |}).
Proof. unfold invoke. destruct (client (manager w)) as [c s']. reflexivity. Qed.

Lemma notifyLimit_events (error : JsError) (remaining : list ProviderIdentity) (w : World) :
  events (notifyLimit error remaining w) = events w ++ warningFor (Some error) remaining.
Proof.
  unfold notifyLimit, warningFor.
  destruct (limitInfo error) as [info|]; simpl.
  - reflexivity.
  - symmetry. apply app_nil_r.
Qed.

Lemma notifyLimit_manager (error : JsError) (remaining : list ProviderIdentity) (w : World) :
  manager (notifyLimit error remaining w) = manager w.
Proof. unfold notifyLimit. destruct (limitInfo error); reflexivity. Qed.

Lemma attemptsOf_app (evs1 evs2 : list Event) :
  attemptsOf (evs1 ++ evs2) = attemptsOf evs1 ++ attemptsOf evs2.
Proof.
  induction evs1 as [|[provider failure|info remaining] evs1 IH]; simpl.
  - reflexivity.
  - now rewrite IH.
  - exact IH.
Qed.

Lemma attemptsOf_warningFor (failure : option JsError) (remaining : list ProviderIdentity) :
  attemptsOf (warningFor failure remaining) = [].
Proof. destruct failure as [[msg [info|]]|]; reflexivity. Qed.

(** Reading the attempts back from the log they leave. *)
Lemma attemptsOf_expectedEvents (attempts : list (ProviderIdentity * option JsError)) :
  ∀ candidates, attemptsOf (expectedEvents candidates attempts) = attempts.
Proof.
  induction attempts as [|[provider failure] more IH]; intros candidates; simpl.
  - reflexivity.
  - rewrite attemptsOf_app, attemptsOf_warningFor, IH. reflexivity.
Qed.

(** ** The loops of the source follow step 3 *)

Lemma drop_past_current (done_ rest : list Candidate) (c : Candidate) :
  drop (length done_ + 1) (done_ ++ c :: rest) = rest.
Proof.
  replace (length done_ + 1) with (length (done_ ++ [c])).
  - rewrite (cons_middle c done_ rest), app_assoc. apply drop_app_length.
  - rewrite length_app. reflexivity.
Qed.

Lemma last_index_nil (done_ : list Candidate) (c : Candidate) :
  (Z.of_nat (length done_) =? Z.of_nat (length (done_ ++ [c])) - 1)%Z = true.
Proof. rewrite length_app. simpl. apply Z.eqb_eq. lia. Qed.

Lemma last_index_cons (done_ rest : list Candidate) (c next : Candidate) :
  (Z.of_nat (length done_) =? Z.of_nat (length (done_ ++ c :: next :: rest)) - 1)%Z = false.
Proof. rewrite length_app. simpl. apply Z.eqb_neq. lia. Qed.

Lemma notifyLimit_unfold (error : JsError) (remaining : list ProviderIdentity) (w : World) :
  match limitInfo error with
  | Some info => showLimitWarning info remaining w
  | None => w
  end = notifyLimit error remaining w.
Proof. reflexivity. Qed.

(** One more turn of a loop: the induction hypothesis at [done_ ++ [c]]. *)
Ltac loop_step IH done_ c w :=
  let IH' := fresh "IH" in
  pose proof (IH (done_ ++ [c]) w) as IH';
  rewrite <- app_assoc in IH';
  rewrite length_app in IH';
  change (length [c]) with 1 in IH';
  rewrite Nat.add_1_r in IH';
  exact IH'.

Section Loops.

Context `{clients : ProviderClients EvaluationResponse}.

(** With [done_] the candidates already tried, the evaluation loop at index
    [length done_] is step 3 on the candidates still pending. *)
Lemma evaluationLoop_refines (request : EvaluationRequest) (noProviders : string)
    (pending : list Candidate) :
  ∀ (done_ : list Candidate) (w : World),
    evaluationLoop request (done_ ++ pending) pending (length done_) w =
    match pending with
    | [] => (None, w)
    | c :: rest =>
        let r := specFallback (evaluateSwitch request) (name c) (map name rest) w in
        (Some (completionOf noProviders r.1), r.2)
    end.
Proof.
  induction pending as [|c rest IH]; intros done_ w.
  - reflexivity.
  - cbn [evaluationLoop]. rewrite drop_past_current.
    destruct rest as [|next later].
    + cbn [map specFallback].
      destruct (invoke (name c) (evaluateSwitch request (name c)) w) as [[r|e] w1].
      * reflexivity.
      * rewrite last_index_nil, notifyLimit_unfold. reflexivity.
    + cbn [map]. cbn [specFallback].
      destruct (invoke (name c) (evaluateSwitch request (name c)) w) as [[r|e] w1].
      * reflexivity.
      * rewrite last_index_cons, notifyLimit_unfold.
        loop_step IH done_ c (notifyLimit e (name next :: map name later) w1).
Qed.

(** The same for the content-generation loop. *)
Lemma contentLoop_refines (prompt : string) (noProviders : string)
    (pending : list Candidate) :
  ∀ (done_ : list Candidate) (w : World),
    contentLoop prompt (done_ ++ pending) pending (length done_) w =
    match pending with
    | [] => (None, w)
    | c :: rest =>
        let r := specFallback (generateRawText prompt) (name c) (map name rest) w in
        (Some (completionOf noProviders r.1), r.2)
    end.
Proof.
  induction pending as [|c rest IH]; intros done_ w.
  - reflexivity.
  - cbn [contentLoop]. rewrite drop_past_current.
    destruct rest as [|next later].
    + cbn [map specFallback].
      destruct (invoke (name c) (generateRawText prompt (name c)) w) as [[r|e] w1].
      * reflexivity.
      * rewrite last_index_nil, notifyLimit_unfold. reflexivity.
    + cbn [map]. cbn [specFallback].
      destruct (invoke (name c) (generateRawText prompt (name c)) w) as [[r|e] w1].
      * reflexivity.
      * rewrite last_index_cons, notifyLimit_unfold.
        loop_step IH done_ c (notifyLimit e (name next :: map name later) w1).
Qed.

End Loops.

(** ** What a run of step 3 leaves behind *)

Section Runs.

Context {A : Type} (client : ProviderIdentity -> Client A).

(** The shape of every run: the log grows by the attempts on a prefix of the
    candidates, each followed by its warning; a success is the last attempt
    and the world is the one its client call left; an aggregate failure
    comes after every candidate failed and carries the last message. *)
Lemma specFallback_run (remaining : list ProviderIdentity) :
  ∀ (candidate : ProviderIdentity) (w : World),
    let r := specFallback client candidate remaining w in
    ∃ attempts : list (ProviderIdentity * option JsError),
      events r.2 = events w ++ expectedEvents (candidate :: remaining) attempts
      ∧ map fst attempts `prefix_of` candidate :: remaining
      ∧ match r.1 with
        | Success response =>
            ∃ pre p wp,
              attempts = pre ++ [(p, None)]
              ∧ Forall attemptFailed pre
              ∧ invoke p (client p) wp = (Return response, r.2)
        | NoProvidersAvailable => False
        | AllProvidersFailed lastMessage =>
            map fst attempts = candidate :: remaining
            ∧ Forall attemptFailed attempts
            ∧ ∃ p e, last attempts = Some (p, Some e) ∧ message e = lastMessage
        end.
Proof.
  induction remaining as [|next later IH]; intros candidate w.
  - cbn [specFallback].
    destruct (invoke candidate (client candidate) w) as [c w1] eqn:Hcall.
    pose proof (invoke_unfold candidate (client candidate) w) as Hw1.
    rewrite Hcall in Hw1. injection Hw1 as Hc Hw1.
    destruct c as [response|e]; cbn zeta.
    + exists [(candidate, None)]. cbn [fst snd]. split; [|split].
      * rewrite Hw1. cbn. rewrite <- Hc. reflexivity.
      * reflexivity.
      * exists [], candidate, w. repeat split; [constructor | exact Hcall].
    + exists [(candidate, Some e)]. cbn [fst snd]. split; [|split].
      * rewrite notifyLimit_events, Hw1. cbn [events expectedEvents tail].
        rewrite <- Hc. cbn [failureOf]. rewrite app_nil_r, <- app_assoc. reflexivity.
      * reflexivity.
      * repeat split.
        -- constructor; [eexists; reflexivity | constructor].
        -- exists candidate, e. split; reflexivity.
  - cbn [specFallback].
    destruct (invoke candidate (client candidate) w) as [c w1] eqn:Hcall.
    pose proof (invoke_unfold candidate (client candidate) w) as Hw1.
    rewrite Hcall in Hw1. injection Hw1 as Hc Hw1.
    destruct c as [response|e]; cbn zeta.
    + exists [(candidate, None)]. cbn [fst snd]. split; [|split].
      * rewrite Hw1. cbn. rewrite <- Hc. reflexivity.
      * exists (next :: later). reflexivity.
      * exists [], candidate, w. repeat split; [constructor | exact Hcall].
    + destruct (IH next (notifyLimit e (next :: later) w1))
        as (attempts & Hevents & Hprefix & Hend).
      exists ((candidate, Some e) :: attempts). cbn [fst snd]. split; [|split].
      * rewrite Hevents, notifyLimit_events, Hw1. cbn [events expectedEvents tail].
        rewrite <- Hc. cbn [failureOf]. rewrite <- !app_assoc. reflexivity.
      * cbn [map fst]. apply prefix_cons. exact Hprefix.
      * destruct (specFallback client next later (notifyLimit e (next :: later) w1)).1
          as [response| |lastMessage].
        -- destruct Hend as (pre & p & wp & Hattempts & Hpre & Hinvoke).
           exists ((candidate, Some e) :: pre), p, wp. repeat split.
           ++ rewrite Hattempts. reflexivity.
           ++ constructor; [eexists; reflexivity | exact Hpre].
           ++ exact Hinvoke.
        -- exact Hend.
        -- destruct Hend as (Hall & Hfailed & p & e' & Hlast & Hmsg).
           repeat split.
           ++ cbn [map fst]. rewrite Hall. reflexivity.
           ++ constructor; [eexists; reflexivity | exact Hfailed].
           ++ exists p, e'. split; [|exact Hmsg].
              destruct attempts as [|a attempts']; [discriminate Hlast | exact Hlast].
Qed.

(** Step 3 touches the registry through the client calls only: whatever
    they preserve is preserved by the whole run. *)
Lemma specFallback_frame (P : AIProviderManager.state → Prop)
    (remaining : list ProviderIdentity) :
  (∀ p s, P s → P (client p s).2) →
  ∀ (candidate : ProviderIdentity) (w : World),
    P (manager w) → P (manager (specFallback client candidate remaining w).2).
Proof.
  intros Hclient.
  induction remaining as [|next later IH]; intros candidate w Hw;
    cbn [specFallback]; rewrite invoke_unfold;
    pose proof (Hclient candidate (manager w) Hw) as Hstep;
    destruct (client candidate (manager w)) as [[response|e] s']; cbn [fst snd] in *.
  - exact Hstep.
  - rewrite notifyLimit_manager. exact Hstep.
  - exact Hstep.
  - apply IH. rewrite notifyLimit_manager. exact Hstep.
Qed.

(** Steps 2 and 3 on a list of candidates, read from the source's shape:
    the emptiness test, then the loop from index 0. *)
Lemma specBestAvailable_run (candidates : list ProviderIdentity) (w : World) :
  let r := specBestAvailable client candidates w in
  ∃ attempts : list (ProviderIdentity * option JsError),
    events r.2 = events w ++ expectedEvents candidates attempts
    ∧ map fst attempts `prefix_of` candidates
    ∧ match r.1 with
      | Success response =>
          ∃ pre p wp,
            attempts = pre ++ [(p, None)]
            ∧ Forall attemptFailed pre
            ∧ invoke p (client p) wp = (Return response, r.2)
      | NoProvidersAvailable => candidates = [] ∧ r.2 = w
      | AllProvidersFailed lastMessage =>
          map fst attempts = candidates
          ∧ candidates ≠ []
          ∧ Forall attemptFailed attempts
          ∧ ∃ p e, last attempts = Some (p, Some e) ∧ message e = lastMessage
      end.
Proof.
  destruct candidates as [|first others]; cbn [specBestAvailable].
  - exists []. cbn. rewrite app_nil_r. repeat split. reflexivity.
  - destruct (specFallback_run others first w) as (attempts & Hevents & Hprefix & Hend).
    cbn zeta in *. exists attempts. split; [exact Hevents|]. split; [exact Hprefix|].
    destruct (specFallback client first others w).1 as [response| |lastMessage].
    + exact Hend.
    + destruct Hend.
    + destruct Hend as (Hall & Hfailed & Hlast). repeat split; try assumption. discriminate.
Qed.

End Runs.

Lemma elem_of_attemptsOf (evs : list Event) (p : ProviderIdentity) (failure : option JsError) :
  ProviderCall p failure ∈ evs → (p, failure) ∈ attemptsOf evs.
Proof.
  induction evs as [|[q f|info remaining] evs IH]; intros Hin.
  - inversion Hin.
  - apply elem_of_cons in Hin as [Heq|Hin].
    + injection Heq as -> ->. apply elem_of_cons. left. reflexivity.
    + apply elem_of_cons. right. apply IH, Hin.
  - apply elem_of_cons in Hin as [Heq|Hin]; [discriminate Heq | apply IH, Hin].
Qed.

Lemma failed_attempts_no_success (pre : list (ProviderIdentity * option JsError))
    (p : ProviderIdentity) :
  ¬ Forall attemptFailed (pre ++ [(p, None)]).
Proof.
  intros Hall. apply Forall_app in Hall as [_ Hlast].
  inversion Hlast as [|a l [e He] _]. discriminate He.
Qed.

(** What the caller and the log see of steps 2 and 3, whatever the entry
    point's client and wording. *)
Lemma bestAvailable_log {A} (client : ProviderIdentity -> Client A)
    (noProviders : string) (candidates : list ProviderIdentity) (w : World) :
  let r := specBestAvailable client candidates w in
  ∃ attempts : list (ProviderIdentity * option JsError),
    events r.2 = events w ++ expectedEvents candidates attempts
    ∧ map fst attempts `prefix_of` candidates
    ∧ match completionOf noProviders r.1 with
      | Return response =>
          ∃ pre p wp,
            attempts = pre ++ [(p, None)]
            ∧ Forall attemptFailed pre
            ∧ invoke p (client p) wp = (Return response, r.2)
      | Throw error =>
          (candidates = [] ∧ r.2 = w ∧ error = Error noProviders)
          ∨ (map fst attempts = candidates
             ∧ candidates ≠ []
             ∧ Forall attemptFailed attempts
             ∧ ∃ p e, last attempts = Some (p, Some e)
                      ∧ error = Error (allProvidersFailed (message e)))
      end.
Proof.
  destruct (specBestAvailable_run client candidates w) as (attempts & Hevents & Hprefix & Hend).
  cbn zeta in *. exists attempts. split; [exact Hevents|]. split; [exact Hprefix|].
  destruct (specBestAvailable client candidates w).1 as [response| |lastMessage]; cbn [completionOf].
  - exact Hend.
  - left. destruct Hend as [Hnil Hw]. repeat split; assumption.
  - right. destruct Hend as (Hall & Hne & Hfailed & p & e & Hlast & Hmsg).
    repeat split; try assumption. exists p, e. split; [exact Hlast|]. rewrite Hmsg. reflexivity.
Qed.

(** ** The entry points *)

Section Service.

Context `{clients : ProviderClients EvaluationResponse}.

Lemma evaluationAvailableProviders_names (w : World) :
  map name (evaluationAvailableProviders w) = specSelect (manager w).
Proof.
  unfold evaluationAvailableProviders, specSelect, staticPriority, hasApiKeys,
    AIProviderManager.hasApiKeys, AIProviderManager.isProviderAvailable.
  cbn [fst ApiKeys.gemini List.filter available].
  destruct (AIProviderManager.credentials (manager w) gemini);
    destruct (bool_decide (gemini ∈ AIProviderManager.failedProviders (manager w)));
    reflexivity.
Qed.

Lemma contentAvailableProviders_names (w : World) :
  map name (contentAvailableProviders w) = specSelect (manager w).
Proof.
  unfold contentAvailableProviders, specSelect, staticPriority, hasApiKeys,
    AIProviderManager.hasApiKeys, AIProviderManager.isProviderAvailable.
  cbn [fst ApiKeys.gemini List.filter available].
  destruct (AIProviderManager.credentials (manager w) gemini);
    destruct (bool_decide (gemini ∈ AIProviderManager.failedProviders (manager w)));
    reflexivity.
Qed.

(** [evaluateWithBestAvailable] is steps 1 to 3 around the evaluation clients. *)
Lemma evaluate_refines (request : EvaluationRequest) (w : World) :
  evaluateWithBestAvailable request w =
  let r := specBestAvailable (evaluateSwitch request) (specSelect (manager w)) w in
  (completionOf noProvidersForEvaluation r.1, r.2).
Proof.
  unfold evaluateWithBestAvailable. rewrite <- evaluationAvailableProviders_names.
  destruct (evaluationAvailableProviders w) as [|c rest].
  - reflexivity.
  - cbn [length Nat.eqb map specBestAvailable].
    rewrite (evaluationLoop_refines request noProvidersForEvaluation (c :: rest) [] w).
    reflexivity.
Qed.

(** [generateContentWithBestAvailable] is steps 1 to 3 around the raw-text
    client. *)
Lemma generate_refines (prompt : string) (w : World) :
  generateContentWithBestAvailable prompt w =
  let r := specBestAvailable (generateRawText prompt) (specSelect (manager w)) w in
  (completionOf noProvidersForContent r.1, r.2).
Proof.
  unfold generateContentWithBestAvailable. rewrite <- contentAvailableProviders_names.
  destruct (contentAvailableProviders w) as [|c rest].
  - reflexivity.
  - cbn [length Nat.eqb map specBestAvailable].
    rewrite (contentLoop_refines prompt noProvidersForContent (c :: rest) [] w).
    reflexivity.
Qed.

(** The candidates of either entry point: nothing, or gemini alone. *)
Lemma specSelect_cases (s : AIProviderManager.state) :
  (AIProviderManager.isProviderAvailable s gemini = false ∧ specSelect s = [])
  ∨ (AIProviderManager.isProviderAvailable s gemini = true ∧ specSelect s = [gemini]).
Proof.
  unfold specSelect, staticPriority. cbn [List.filter].
  destruct (AIProviderManager.isProviderAvailable s gemini); [right | left]; split; reflexivity.
Qed.

(** C1: for every request, when [isProviderAvailable] is false for every
    provider, [evaluateWithBestAvailable] fails with the no-providers error
    and hands back the world it was given: the event log has no new entry,
    so no provider client was invoked. *)
Theorem evaluate_fails_when_nothing_available (request : EvaluationRequest) (w : World) :
  (∀ p, AIProviderManager.isProviderAvailable (manager w) p = false) →
  evaluateWithBestAvailable request w = (Throw (Error noProvidersForEvaluation), w).
Proof.
  intros Hnone. rewrite evaluate_refines.
  destruct (specSelect_cases (manager w)) as [[_ Hsel]|[Havail _]].
  - rewrite Hsel. reflexivity.
  - rewrite Hnone in Havail. discriminate Havail.
Qed.

End Service.

Lemma evaluate_fails_when_nothing_available_witness :
  evaluateWithBestAvailable (clients := answeringClients) sampleRequest noKeyWorld
  = (Throw (Error noProvidersForEvaluation), noKeyWorld).
Proof.
  apply (evaluate_fails_when_nothing_available (clients := answeringClients)).
  intros p. destruct p; reflexivity.
Defined.

(** ** Rejections in turn, then a success *)

Section FirstSuccess.

Context {A : Type} (client : ProviderIdentity -> Client A).



End FirstSuccess.

Section Orchestration.

Context `{clients : ProviderClients EvaluationResponse}.

(** The log of one evaluation call, read against the candidates the call
    computed. *)
Lemma evaluate_log (request : EvaluationRequest) (w : World) :
  let r := evaluateWithBestAvailable request w in
  let candidates := map name (evaluationAvailableProviders w) in
  ∃ attempts : list (ProviderIdentity * option JsError),
    events r.2 = events w ++ expectedEvents candidates attempts
    ∧ map fst attempts `prefix_of` candidates
    ∧ match r.1 with
      | Return response =>
          ∃ pre p wp,
            attempts = pre ++ [(p, None)]
            ∧ Forall attemptFailed pre
            ∧ invoke p (evaluateSwitch request p) wp = (Return response, r.2)
      | Throw error =>
          (candidates = [] ∧ r.2 = w ∧ error = Error noProvidersForEvaluation)
          ∨ (map fst attempts = candidates
             ∧ candidates ≠ []
             ∧ Forall attemptFailed attempts
             ∧ ∃ p e, last attempts = Some (p, Some e)
                      ∧ error = Error (allProvidersFailed (message e)))
      end.
Proof.
  cbn zeta. rewrite evaluate_refines, evaluationAvailableProviders_names. cbn zeta.
  cbn [fst snd].
  exact (bestAvailable_log (evaluateSwitch request) noProvidersForEvaluation
           (specSelect (manager w)) w).
Qed.



(** C3, as amended: when the candidate list is not empty and every attempt
    of the call failed, the attempts of the log are the candidates, each
    once and in priority order, and the call throws an error whose message
    is the fixed text "All AI providers failed. Last error: " followed by
    the message of the last attempt's error. *)
Theorem all_failed_reports_last_message (request : EvaluationRequest) (w : World)
    (evs : list Event) :
  let r := evaluateWithBestAvailable request w in
  evaluationAvailableProviders w ≠ [] →
  events r.2 = events w ++ evs →
  Forall attemptFailed (attemptsOf evs) →
  map fst (attemptsOf evs) = map name (evaluationAvailableProviders w)
  ∧ ∃ p e, last (attemptsOf evs) = Some (p, Some e)
           ∧ r.1 = Throw (Error ("All AI providers failed. Last error: " +:+ message e)).
Proof.
  intros r Hne Hevs Hfailed.
  destruct (evaluate_log request w) as (attempts & Hevents & Hprefix & Hend).
  cbn zeta in Hevents, Hprefix, Hend. fold r in Hevents, Hend.
  rewrite Hevs in Hevents. apply app_inv_head in Hevents. subst evs.
  rewrite attemptsOf_expectedEvents in *.
  destruct r.1 as [response|error].
  - destruct Hend as (pre & p & wp & Hattempts & _).
    subst attempts. destruct (failed_attempts_no_success pre p Hfailed).
  - destruct Hend as [(Hnil & _)|(Hall & _ & _ & p & e & Hlast & Herror)].
    + destruct (evaluationAvailableProviders w); [congruence | discriminate Hnil].
    + split; [exact Hall|]. exists p, e. split; [exact Hlast|].
      rewrite Herror. reflexivity.
Qed.


End Orchestration.




(** C3, as stated, fails: with gemini as the only candidate and its client
    rejecting with "timeout", the single attempt is logged with that error,
    but the message of the error the call throws is not "timeout". *)
Lemma aggregate_message_differs_from_last_message :
  let r := evaluateWithBestAvailable (clients := timeoutClients) sampleRequest readyWorld in
  attemptsOf (events r.2) = [(gemini, Some (Error "timeout"))]
  ∧ r.1 = Throw (Error "All AI providers failed. Last error: timeout")
  ∧ ∃ error, r.1 = Throw error ∧ message error ≠ "timeout".
Proof.
  cbn zeta. split; [reflexivity|]. split; [reflexivity|].
  eexists. split; [reflexivity|]. cbn. discriminate.
Qed.

Lemma all_failed_reports_last_message_witness :
  ∃ p e,
    last (attemptsOf [ProviderCall gemini (Some (Error "timeout"))]) = Some (p, Some e)
    ∧ (evaluateWithBestAvailable (clients := timeoutClients) sampleRequest readyWorld).1
      = Throw (Error ("All AI providers failed. Last error: " +:+ message e)).
Proof.
  apply (all_failed_reports_last_message (clients := timeoutClients)
           sampleRequest readyWorld [ProviderCall gemini (Some (Error "timeout"))]).
  - discriminate.
  - reflexivity.
  - constructor; [eexists; reflexivity | constructor].
Defined.

Section Notifications.

Context `{clients : ProviderClients EvaluationResponse}.


(** C7, as amended: both entry points are the one algorithm of the
    specification (availability filter of the static order, failure on the
    empty list, the fallback of step 3 with its limit notification and its
    aggregate failure at the last candidate), run on the same candidate
    list; they differ in the client awaited per provider and in the text of
    the error thrown on the empty list, and in nothing else. *)
Theorem entry_points_share_the_algorithm (request : EvaluationRequest)
    (prompt : string) (w : World) :
  evaluateWithBestAvailable request w
  = (let r := specBestAvailable (evaluateSwitch request) (specSelect (manager w)) w in
     (completionOf noProvidersForEvaluation r.1, r.2))
  ∧ generateContentWithBestAvailable prompt w
    = (let r := specBestAvailable (generateRawText prompt) (specSelect (manager w)) w in
       (completionOf noProvidersForContent r.1, r.2)).
Proof. split; [apply evaluate_refines | apply generate_refines]. Qed.


End Notifications.

(** C7, as stated, fails: without any credential both entry points fail on
    the empty list, but not with the same error: the two messages differ. *)
Lemma empty_list_failures_differ :
  let re := evaluateWithBestAvailable (clients := answeringClients) sampleRequest noKeyWorld in
  let rg := generateContentWithBestAvailable (clients := answeringClients)
              "Write a question" noKeyWorld in
  re.1
  = Throw (Error "No AI providers available. Please add API keys from Groq, OpenAI, or Gemini in Settings.")
  ∧ rg.1
    = Throw (Error "No AI providers available. Please check your API keys configuration.")
  ∧ failureOf re.1 ≠ failureOf rg.1.
Proof. cbn zeta. repeat split. discriminate. Qed.


(** ** A single configured provider *)

(** Steps 2 and 3 on the candidates either entry point computes: at most one
    attempt, on gemini; its warning names no remaining provider; its failure
    is the aggregate failure. *)
Lemma single_candidate_log {A} (client : ProviderIdentity -> Client A)
    (noProviders : string) (w : World) :
  let r := specBestAvailable client (specSelect (manager w)) w in
  ∃ evs,
    events r.2 = events w ++ evs
    ∧ (∀ info remaining, LimitWarning info remaining ∈ evs → remaining = [])
    ∧ (∀ p e, ProviderCall p (Some e) ∈ evs →
         attemptsOf evs = [(gemini, Some e)]
         ∧ completionOf noProviders r.1 = Throw (Error (allProvidersFailed (message e)))).
Proof.
  cbn zeta. unfold specSelect, staticPriority. cbn [List.filter].
  destruct (AIProviderManager.isProviderAvailable (manager w) gemini);
    cbn [specBestAvailable specFallback].
  - rewrite invoke_unfold.
    destruct (client gemini (manager w)) as [[response|e] s']; cbn [fst snd failureOf].
    + exists [ProviderCall gemini None]. split; [reflexivity|]. split.
      * intros info remaining Hin. apply list_elem_of_singleton in Hin. discriminate Hin.
      * intros p e Hin. apply list_elem_of_singleton in Hin. discriminate Hin.
    + exists (ProviderCall gemini (Some e) :: warningFor (Some e) []). split.
      * rewrite notifyLimit_events. cbn [events]. rewrite <- app_assoc. reflexivity.
      * unfold warningFor. destruct (limitInfo e) as [info|]; split.
        -- intros info' remaining Hin.
           apply elem_of_cons in Hin as [Heq|Hin]; [discriminate Heq|].
           apply list_elem_of_singleton in Hin. congruence.
        -- intros p e' Hin.
           apply elem_of_cons in Hin as [Heq|Hin].
           ++ injection Heq as -> ->. split; reflexivity.
           ++ apply list_elem_of_singleton in Hin. discriminate Hin.
        -- intros info' remaining Hin. apply list_elem_of_singleton in Hin. discriminate Hin.
        -- intros p e' Hin. apply list_elem_of_singleton in Hin.
           injection Hin as -> ->. split; reflexivity.
  - exists []. split; [symmetry; apply app_nil_r|]. split.
    + intros info remaining Hin. inversion Hin.
    + intros p e Hin. inversion Hin.
Qed.

Section SingleProvider.

Context `{clients : ProviderClients EvaluationResponse}.

(** C10: in both entry points the candidate list is empty or holds gemini
    alone; every limit warning of a call names no remaining provider; and a
    failed provider attempt is the only attempt of its call, which ends with
    the aggregate-failure error built from that attempt's message. *)
Theorem gemini_is_the_only_candidate (request : EvaluationRequest)
    (prompt : string) (w : World) :
  let re := evaluateWithBestAvailable request w in
  let rg := generateContentWithBestAvailable prompt w in
  (map name (evaluationAvailableProviders w) = []
   ∨ map name (evaluationAvailableProviders w) = [gemini])
  ∧ (map name (contentAvailableProviders w) = []
     ∨ map name (contentAvailableProviders w) = [gemini])
  ∧ (∃ evs,
       events re.2 = events w ++ evs
       ∧ (∀ info remaining, LimitWarning info remaining ∈ evs → remaining = [])
       ∧ (∀ p e, ProviderCall p (Some e) ∈ evs →
            attemptsOf evs = [(gemini, Some e)]
            ∧ re.1 = Throw (Error (allProvidersFailed (message e)))))
  ∧ (∃ evs,
       events rg.2 = events w ++ evs
       ∧ (∀ info remaining, LimitWarning info remaining ∈ evs → remaining = [])
       ∧ (∀ p e, ProviderCall p (Some e) ∈ evs →
            attemptsOf evs = [(gemini, Some e)]
            ∧ rg.1 = Throw (Error (allProvidersFailed (message e))))).
Proof.
  cbn zeta. split; [|split; [|split]].
  - rewrite evaluationAvailableProviders_names.
    destruct (specSelect_cases (manager w)) as [[_ ->]|[_ ->]]; [left | right]; reflexivity.
  - rewrite contentAvailableProviders_names.
    destruct (specSelect_cases (manager w)) as [[_ ->]|[_ ->]]; [left | right]; reflexivity.
  - rewrite evaluate_refines. cbn zeta. cbn [fst snd].
    exact (single_candidate_log (evaluateSwitch request) noProvidersForEvaluation w).
  - rewrite generate_refines. cbn zeta. cbn [fst snd].
    exact (single_candidate_log (generateRawText prompt) noProvidersForContent w).
Qed.

End SingleProvider.

(** ** The loops on more than one candidate *)

(** The first candidate is rate limited, the second answers: one warning
    naming the two candidates still to come, then the response of the second;
    the third is never called. *)
Example fallback_to_second_candidate :
  let r := evaluationLoop (clients := mixedClients) sampleRequest
             threeCandidates threeCandidates 0 readyWorld in
  r.1 = Some (Return "openai says 7")
  ∧ events r.2
    = [ ProviderCall groq (Some {| message := "429"; limitInfo := Some quotaInfo |});
        LimitWarning quotaInfo [openai; gemini];
        ProviderCall openai None ].
Proof. cbn zeta. split; reflexivity. Qed.

(** All three candidates are rate limited: three attempts in order, each with
    its warning and a shrinking list of remaining candidates, then the
    aggregate failure with the last message. *)
Example three_limited_candidates :
  let r := contentLoop (clients := quotaClients) "Write a question"
             threeCandidates threeCandidates 0 readyWorld in
  r.1 = Some (Throw (Error "All AI providers failed. Last error: 429"))
  ∧ map fst (attemptsOf (events r.2)) = [groq; openai; gemini]
  ∧ List.filter (fun ev => match ev with LimitWarning _ _ => true | _ => false end)
      (events r.2)
    = [ LimitWarning quotaInfo [openai; gemini];
        LimitWarning quotaInfo [gemini];
        LimitWarning quotaInfo [] ].
Proof. cbn zeta. repeat split; reflexivity. Qed.

(** The scenario without a credential: [hasApiKeys] reports gemini as
    missing and both entry points fail before any call. *)
Example no_credential_scenario :
  ApiKeys.gemini (hasApiKeys noKeyWorld).1 = false
  ∧ evaluateWithBestAvailable (clients := answeringClients) sampleRequest noKeyWorld
    = (Throw (Error noProvidersForEvaluation), noKeyWorld)
  ∧ generateContentWithBestAvailable (clients := answeringClients) "Write a question"
      noKeyWorld
    = (Throw (Error noProvidersForContent), noKeyWorld).
Proof. repeat split; reflexivity. Qed.

(** * Further properties of the service *)

Section EntryPointsInFull.

Context `{clients : ProviderClients EvaluationResponse}.

(** The gate of [providerPriority] in both entry points is the availability of
    gemini. *)
Lemma gemini_gate (w : World) :
  ApiKeys.gemini (hasApiKeys w).1 && AIProviderManager.isProviderAvailable (manager w) gemini
  = AIProviderManager.isProviderAvailable (manager w) gemini.
Proof.
  unfold hasApiKeys, AIProviderManager.hasApiKeys, AIProviderManager.isProviderAvailable.
  cbn [fst ApiKeys.gemini].
  destruct (AIProviderManager.credentials (manager w) gemini); reflexivity.
Qed.

(** X1: the whole of [evaluateWithBestAvailable].  Without a gemini key, or
    with gemini not available, it throws the no-providers error and nothing
    else happens, whatever the keys of the other providers.  Otherwise it
    awaits [evaluateWithGemini] once: a response is returned as it is and the
    registry is as the client left it; a rejection is logged, followed by its
    warning when it carries [LimitInfo], with no remaining provider, and
    becomes the aggregate error. *)
Theorem evaluate_in_full (request : EvaluationRequest) (w : World) :
  evaluateWithBestAvailable request w =
  if ApiKeys.gemini (hasApiKeys w).1
     && AIProviderManager.isProviderAvailable (manager w) gemini
  then
    match evaluateWithGemini request (manager w) with
    | (Return response, s') =>
        (Return response,
         {| manager := s'; events := events w ++ [ProviderCall gemini None] |})
    | (Throw e, s') =>
        (Throw (Error (allProvidersFailed (message e))),
         {| manager := s';
            events := events w ++ ProviderCall gemini (Some e) :: warningFor (Some e) [] |})
    end
  else (Throw (Error noProvidersForEvaluation), w).
Proof.
  rewrite gemini_gate, evaluate_refines.
  unfold specSelect, staticPriority. cbn [List.filter].
  destruct (AIProviderManager.isProviderAvailable (manager w) gemini); [|reflexivity].
  cbn [specBestAvailable specFallback]. rewrite invoke_unfold. cbn [evaluateSwitch].
  destruct (evaluateWithGemini request (manager w)) as [[response|e] s'];
    cbn [fst snd failureOf completionOf]; [reflexivity|].
  f_equal. unfold notifyLimit, warningFor, showLimitWarning.
  destruct (limitInfo e) as [info|]; cbn [manager events].
  - rewrite <- app_assoc. reflexivity.
  - reflexivity.
Qed.

(** X2: the whole of [generateContentWithBestAvailable], in the same three
    cases, around [generateRawText(prompt, 'gemini')] and with its own
    no-providers text. *)
Theorem generate_in_full (prompt : string) (w : World) :
  generateContentWithBestAvailable prompt w =
  if ApiKeys.gemini (hasApiKeys w).1
     && AIProviderManager.isProviderAvailable (manager w) gemini
  then
    match generateRawText prompt gemini (manager w) with
    | (Return content, s') =>
        (Return content,
         {| manager := s'; events := events w ++ [ProviderCall gemini None] |})
    | (Throw e, s') =>
        (Throw (Error (allProvidersFailed (message e))),
         {| manager := s';
            events := events w ++ ProviderCall gemini (Some e) :: warningFor (Some e) [] |})
    end
  else (Throw (Error noProvidersForContent), w).
Proof.
  rewrite gemini_gate, generate_refines.
  unfold specSelect, staticPriority. cbn [List.filter].
  destruct (AIProviderManager.isProviderAvailable (manager w) gemini); [|reflexivity].
  cbn [specBestAvailable specFallback]. rewrite invoke_unfold.
  destruct (generateRawText prompt gemini (manager w)) as [[content|e] s'];
    cbn [fst snd failureOf completionOf]; [reflexivity|].
  f_equal. unfold notifyLimit, warningFor, showLimitWarning.
  destruct (limitInfo e) as [info|]; cbn [manager events].
  - rewrite <- app_assoc. reflexivity.
  - reflexivity.
Qed.

(** Every error of steps 2 and 3 is a fresh [Error]: it has no [limitInfo]. *)
Lemma completionOf_no_limit_info {A} (noProviders : string) (o : Outcome A) :
  match completionOf noProviders o with
  | Return _ => True
  | Throw e => limitInfo e = None
  end.
Proof. destruct o; cbn; trivial. Qed.

(** X3: an error thrown by either entry point never carries [limitInfo];
    the limit information of a provider error reaches the user through
    [showLimitWarning] only, not through the error the caller catches. *)
Theorem thrown_errors_carry_no_limit_info (request : EvaluationRequest)
    (prompt : string) (w : World) :
  match (evaluateWithBestAvailable request w).1 with
  | Return _ => True
  | Throw e => limitInfo e = None
  end
  ∧ match (generateContentWithBestAvailable prompt w).1 with
    | Return _ => True
    | Throw e => limitInfo e = None
    end.
Proof.
  rewrite evaluate_refines, generate_refines. cbn zeta. cbn [fst].
  split; apply completionOf_no_limit_info.
Qed.

(** X5: the loop of [generateContentWithBestAvailable], started at index 0 on
    a non-empty list, always leaves through a [return] or a [throw] of its
    body; the statement after it is not reached. *)
Theorem content_loop_never_falls_through (prompt : string)
    (availableProviders : list Candidate) (w : World) :
  availableProviders ≠ [] →
  ∃ c, (contentLoop prompt availableProviders availableProviders 0 w).1 = Some c.
Proof.
  intros Hne. destruct availableProviders as [|c rest]; [congruence|].
  rewrite (contentLoop_refines prompt noProvidersForContent (c :: rest) [] w).
  eexists. reflexivity.
Qed.

End EntryPointsInFull.

(** X4: neither entry point ever awaits a client other than gemini's: two
    sets of clients that agree on [evaluateWithGemini] for the request give
    the same evaluation, and two that agree on [generateRawText] for gemini
    and the prompt give the same content generation, whatever their groq and
    openai clients do. *)
Theorem only_the_gemini_clients_matter {R : Type} (c1 c2 : ProviderClients R)
    (request : EvaluationRequest) (prompt : string) (w : World) :
  (∀ s, evaluateWithGemini (ProviderClients := c1) request s
        = evaluateWithGemini (ProviderClients := c2) request s) →
  (∀ s, generateRawText (ProviderClients := c1) prompt gemini s
        = generateRawText (ProviderClients := c2) prompt gemini s) →
  evaluateWithBestAvailable (clients := c1) request w
  = evaluateWithBestAvailable (clients := c2) request w
  ∧ generateContentWithBestAvailable (clients := c1) prompt w
    = generateContentWithBestAvailable (clients := c2) prompt w.
Proof.
  intros Heval Hgen. split.
  - rewrite !evaluate_refines. unfold specSelect, staticPriority. cbn [List.filter].
    destruct (AIProviderManager.isProviderAvailable (manager w) gemini); [|reflexivity].
    cbn [specBestAvailable specFallback]. rewrite !invoke_unfold. cbn [evaluateSwitch].
    rewrite Heval. reflexivity.
  - rewrite !generate_refines. unfold specSelect, staticPriority. cbn [List.filter].
    destruct (AIProviderManager.isProviderAvailable (manager w) gemini); [|reflexivity].
    cbn [specBestAvailable specFallback]. rewrite !invoke_unfold.
    rewrite Hgen. reflexivity.
Qed.

Lemma only_the_gemini_clients_matter_witness :
  evaluateWithBestAvailable (clients := timeoutClients) sampleRequest readyWorld
  = evaluateWithBestAvailable (clients := mixedClients) sampleRequest readyWorld
  ∧ generateContentWithBestAvailable (clients := timeoutClients) "Write a question" readyWorld
    = generateContentWithBestAvailable (clients := mixedClients) "Write a question" readyWorld.
Proof.
  apply (only_the_gemini_clients_matter timeoutClients mixedClients).
  - intros s. reflexivity.
  - intros s. reflexivity.
Defined.

Lemma content_loop_never_falls_through_witness :
  ∃ c, (contentLoop (clients := mixedClients) "Write a question"
          threeCandidates threeCandidates 0 readyWorld).1 = Some c.
Proof.
  apply (content_loop_never_falls_through (clients := mixedClients)).
  discriminate.
Defined.

(** ** The loops on any list of candidates *)

Section LoopsInGeneral.

Context `{clients : ProviderClients EvaluationResponse}.

(** X6: on any list of candidates the loop of [evaluateWithBestAvailable],
    started at index 0, attempts the candidates in list order, one attempt
    per position, and logs after each rejection that carries [LimitInfo] one
    warning naming the candidates after it.  It runs to its end only on the
    empty list; a response is the one of the first candidate whose client
    resolved, all candidates before it having been attempted and failed; a
    thrown error comes after every candidate failed and is the aggregate
    error built from the last message. *)
Theorem evaluation_loop_log (request : EvaluationRequest)
    (availableProviders : list Candidate) (w : World) :
  let r := evaluationLoop request availableProviders availableProviders 0 w in
  ∃ attempts : list (ProviderIdentity * option JsError),
    events r.2 = events w ++ expectedEvents (map name availableProviders) attempts
    ∧ map fst attempts `prefix_of` map name availableProviders
    ∧ match r.1 with
      | None => availableProviders = [] ∧ r.2 = w
      | Some (Return response) =>
          ∃ pre p wp,
            attempts = pre ++ [(p, None)]
            ∧ Forall attemptFailed pre
            ∧ invoke p (evaluateSwitch request p) wp = (Return response, r.2)
      | Some (Throw error) =>
          map fst attempts = map name availableProviders
          ∧ Forall attemptFailed attempts
          ∧ ∃ p e, last attempts = Some (p, Some e)
                   ∧ error = Error (allProvidersFailed (message e))
      end.
Proof.
  destruct availableProviders as [|c rest].
  - exists []. cbn. rewrite app_nil_r. repeat split. apply prefix_nil.
  - cbn zeta.
    rewrite (evaluationLoop_refines request noProvidersForEvaluation (c :: rest) [] w).
    cbn zeta. cbn [fst snd map].
    destruct (specFallback_run (evaluateSwitch request) (map name rest) (name c) w)
      as (attempts & Hevents & Hprefix & Hend).
    cbn zeta in Hevents, Hprefix, Hend.
    exists attempts. split; [exact Hevents|]. split; [exact Hprefix|].
    destruct (specFallback (evaluateSwitch request) (name c) (map name rest) w).1
      as [response| |lastMessage]; cbn [completionOf].
    + exact Hend.
    + destruct Hend.
    + destruct Hend as (Hall & Hfailed & p & e & Hlast & Hmsg).
      repeat split; try assumption. exists p, e. split; [exact Hlast|].
      rewrite Hmsg. reflexivity.
Qed.

(** X7: the loop of [generateContentWithBestAvailable] behaves in the same
    way on any list of candidates, around [generateRawText]. *)
Theorem content_loop_log (prompt : string)
    (availableProviders : list Candidate) (w : World) :
  let r := contentLoop prompt availableProviders availableProviders 0 w in
  ∃ attempts : list (ProviderIdentity * option JsError),
    events r.2 = events w ++ expectedEvents (map name availableProviders) attempts
    ∧ map fst attempts `prefix_of` map name availableProviders
    ∧ match r.1 with
      | None => availableProviders = [] ∧ r.2 = w
      | Some (Return content) =>
          ∃ pre p wp,
            attempts = pre ++ [(p, None)]
            ∧ Forall attemptFailed pre
            ∧ invoke p (generateRawText prompt p) wp = (Return content, r.2)
      | Some (Throw error) =>
          map fst attempts = map name availableProviders
          ∧ Forall attemptFailed attempts
          ∧ ∃ p e, last attempts = Some (p, Some e)
                   ∧ error = Error (allProvidersFailed (message e))
      end.
Proof.
  destruct availableProviders as [|c rest].
  - exists []. cbn. rewrite app_nil_r. repeat split. apply prefix_nil.
  - cbn zeta.
    rewrite (contentLoop_refines prompt noProvidersForContent (c :: rest) [] w).
    cbn zeta. cbn [fst snd map].
    destruct (specFallback_run (generateRawText prompt) (map name rest) (name c) w)
      as (attempts & Hevents & Hprefix & Hend).
    cbn zeta in Hevents, Hprefix, Hend.
    exists attempts. split; [exact Hevents|]. split; [exact Hprefix|].
    destruct (specFallback (generateRawText prompt) (name c) (map name rest) w).1
      as [content| |lastMessage]; cbn [completionOf].
    + exact Hend.
    + destruct Hend.
    + destruct Hend as (Hall & Hfailed & p & e & Hlast & Hmsg).
      repeat split; try assumption. exists p, e. split; [exact Hlast|].
      rewrite Hmsg. reflexivity.
Qed.

(** X8: neither entry point writes the registry itself.  A property of the
    registry state (its credentials, its failed set, its override) that the
    gemini clients preserve holds after a call when it held before. *)
Theorem registry_changes_only_in_gemini_clients (P : AIProviderManager.state → Prop)
    (request : EvaluationRequest) (prompt : string) (w : World) :
  (∀ s, P s → P (evaluateWithGemini request s).2) →
  (∀ s, P s → P (generateRawText prompt gemini s).2) →
  P (manager w) →
  P (manager (evaluateWithBestAvailable request w).2)
  ∧ P (manager (generateContentWithBestAvailable prompt w).2).
Proof.
  intros Heval Hgen Hw. split.
  - rewrite evaluate_refines. unfold specSelect, staticPriority. cbn [List.filter].
    destruct (AIProviderManager.isProviderAvailable (manager w) gemini); [|exact Hw].
    cbn [specBestAvailable specFallback]. rewrite invoke_unfold. cbn [evaluateSwitch].
    pose proof (Heval (manager w) Hw) as Hstep.
    destruct (evaluateWithGemini request (manager w)) as [[response|e] s'];
      cbn [fst snd] in *; [exact Hstep|].
    rewrite notifyLimit_manager. exact Hstep.
  - rewrite generate_refines. unfold specSelect, staticPriority. cbn [List.filter].
    destruct (AIProviderManager.isProviderAvailable (manager w) gemini); [|exact Hw].
    cbn [specBestAvailable specFallback]. rewrite invoke_unfold.
    pose proof (Hgen (manager w) Hw) as Hstep.
    destruct (generateRawText prompt gemini (manager w)) as [[content|e] s'];
      cbn [fst snd] in *; [exact Hstep|].
    rewrite notifyLimit_manager. exact Hstep.
Qed.

End LoopsInGeneral.

Lemma registry_changes_only_in_gemini_clients_witness :
  AIProviderManager.forcedProvider
    (manager (evaluateWithBestAvailable (clients := quotaClients) sampleRequest readyWorld).2)
  = None
  ∧ AIProviderManager.forcedProvider
      (manager (generateContentWithBestAvailable (clients := quotaClients)
                  "Write a question" readyWorld).2)
    = None.
Proof.
  apply (registry_changes_only_in_gemini_clients (clients := quotaClients)
           (fun s => AIProviderManager.forcedProvider s = None)
           sampleRequest "Write a question" readyWorld).
  - intros s Hs. exact Hs.
  - intros s Hs. exact Hs.
  - reflexivity.
Defined.

(** Keys for groq and openai do not make up for a missing gemini key. *)
Example other_keys_do_not_help :
  evaluateWithBestAvailable (clients := answeringClients) sampleRequest otherKeysWorld
  = (Throw (Error noProvidersForEvaluation), otherKeysWorld).
Proof. reflexivity. Qed.

(** * The practice session page *)

(** ** trim *)

Lemma trimStart_nil (s : JsString) :
  trimStart s = [] ↔ Forall (λ c, isWhiteSpace c = true) s.
Proof.
  induction s as [|c s IH]; cbn [trimStart].
  - split; [constructor | reflexivity].
  - destruct (isWhiteSpace c) eqn:Hc.
    + rewrite IH. split.
      * intros Hs. constructor; assumption.
      * intros Hall. inversion Hall; assumption.
    + split; [discriminate|].
      intros Hall. inversion Hall as [|c' s' Hc' Hs]. congruence.
Qed.

(** What [trimStart] leaves is empty or starts with a unit that is not
    white space. *)
Lemma trimStart_head (s : JsString) :
  match trimStart s with
  | [] => True
  | c :: _ => isWhiteSpace c = false
  end.
Proof.
  induction s as [|c s IH]; cbn [trimStart]; [exact I|].
  destruct (isWhiteSpace c) eqn:Hc; [exact IH | exact Hc].
Qed.

(** A string trims to the empty string exactly when it is white space
    throughout. *)
Lemma trim_falsy (s : JsString) :
  truthy (trim s) = false ↔ Forall (λ c, isWhiteSpace c = true) s.
Proof.
  assert (Hnil : ∀ l : JsString, truthy l = false ↔ l = []).
  { intros [|c l]; cbn; split; congruence. }
  rewrite Hnil. unfold trim, trimEnd. split.
  - intros Hrev. apply trimStart_nil.
    assert (Hts : trimStart (rev (trimStart s)) = []).
    { apply (f_equal (@rev _)) in Hrev. rewrite rev_involutive in Hrev. exact Hrev. }
    apply trimStart_nil in Hts.
    pose proof (trimStart_head s) as Hhead.
    destruct (trimStart s) as [|c l]; [reflexivity|].
    apply Forall_rev in Hts. rewrite rev_involutive in Hts.
    inversion Hts as [|c' l' Hc _]. congruence.
  - intros Hall. apply trimStart_nil in Hall. rewrite Hall. reflexivity.
Qed.

(** ** The debug lines *)

Section DebugLines.
Import PracticeSession.

(** [slice(-4)] and one more line: the last five of the lines so far. *)
Lemma pushDebugInfo_last_five (line : JsString) (prev : list JsString) :
  pushDebugInfo line prev = drop (length (prev ++ [line]) - 5) (prev ++ [line]).
Proof.
  unfold pushDebugInfo. rewrite length_app. cbn [length].
  rewrite drop_app_le by lia. do 2 f_equal. lia.
Qed.

Lemma last_five_again (history : list JsString) (line : JsString) :
  drop (length (drop (length history - 5) history ++ [line]) - 5)
    (drop (length history - 5) history ++ [line])
  = drop (length (history ++ [line]) - 5) (history ++ [line]).
Proof.
  rewrite !length_app, length_drop. cbn [length].
  rewrite !drop_app_le by (rewrite ?length_drop; lia).
  rewrite drop_drop. do 2 f_equal. lia.
Qed.

Lemma addDebugLogs_history (entries : list (JsString * JsString * LogType)) :
  ∀ (history : list JsString) (toasts : list Toast),
    addDebugLogs entries (drop (length history - 5) history) toasts
    = (let lines := history ++ map (λ e, logMessage e.1.1 e.1.2) entries in
       drop (length lines - 5) lines,
       toasts ++ flat_map (λ e, toastFor e.1.2 e.2) entries).
Proof.
  induction entries as [|[[timestamp message] type] more IH]; intros history toasts.
  - cbn. rewrite !app_nil_r. reflexivity.
  - cbn [addDebugLogs addDebugLog map flat_map fst snd].
    rewrite pushDebugInfo_last_five, last_five_again, IH. cbn zeta.
    rewrite <- !app_assoc. reflexivity.
Qed.

(** X9: whatever the debug lines were, after [addDebugLog] there are at most
    five, the new line is the last one, and the lines before it are exactly
    the last four of the old ones, or all of them when there were fewer, in
    their order. *)
Theorem debug_lines_stay_within_five (timestamp message : JsString) (type : LogType)
    (lines : list JsString) (toasts : list Toast) :
  let lines' := (addDebugLog timestamp message type lines toasts).1 in
  (length lines' ≤ 5)%nat
  ∧ ∃ kept,
      lines' = kept ++ [js "[" ++ timestamp ++ js "] " ++ message]
      ∧ kept `suffix_of` lines
      ∧ length kept = Nat.min (length lines) 4.
Proof.
  cbn zeta. cbn [addDebugLog fst]. unfold pushDebugInfo, logMessage. split.
  - rewrite length_app, length_drop. cbn [length]. lia.
  - exists (drop (length lines - 4) lines). split; [reflexivity|]. split.
    + apply suffix_drop.
    + rewrite length_drop. lia.
Qed.

(** X10: from the empty list the component starts with, after any run of
    [addDebugLog] calls the debug lines are the last five log lines in the
    order they were logged, and the toasts shown are, in order, one per entry
    that is not of type info: an error toast, a success toast or a plain
    toast with the warning sign, each with the message as it was given,
    without the timestamp. *)
Theorem debug_lines_are_the_last_five (entries : list (JsString * JsString * LogType)) :
  addDebugLogs entries [] []
  = (let lines := map (λ e, js "[" ++ e.1.1 ++ js "] " ++ e.1.2) entries in
     drop (length lines - 5) lines,
     flat_map
       (λ e, match e.2 with
             | info => []
             | success => [ToastSuccess e.1.2]
             | error => [ToastError e.1.2]
             | warning => [ToastWithIcon e.1.2 [0x26A0; 0xFE0F]%N]
             end)
       entries).
Proof.
  etransitivity; [exact (addDebugLogs_history entries [] [])|].
  reflexivity.
Qed.

End DebugLines.

(** ** Speech recognition *)

Section Speech.
Import PracticeSession.

Lemma finalTranscript_collected (pending : list SpeechRecognitionResult) :
  ∀ collected,
    finalTranscript pending collected
    = collected ++ mjoin (map transcript (List.filter isFinal pending)).
Proof.
  induction pending as [|result pending IH]; intros collected; cbn [finalTranscript].
  - cbn. symmetry. apply app_nil_r.
  - rewrite IH. cbn [List.filter]. destruct (isFinal result); cbn [map mjoin list_join].
    + rewrite <- app_assoc. reflexivity.
    + reflexivity.
Qed.

(** X11: a transcript is taken once.  After the handler of [onresult] has
    handled an event, an event with the same final transcript, the same event
    delivered again included, does nothing but clear the restart timer when
    there is one: the answer, the last transcript and the debug lines are
    not touched; and handling an event only ever appends to the answer. *)
Theorem repeated_transcript_is_dropped (clock : nat → JsString) (k : nat)
    (recognitionTimeout recognitionTimeout' : option N)
    (event again : SpeechRecognitionEvent) (st : State) :
  finalTranscript (drop (resultIndex again) (results again)) []
  = finalTranscript (drop (resultIndex event) (results event)) [] →
  let st' := applyActions clock k (onresultHandler recognitionTimeout event st) st in
  onresultHandler recognitionTimeout' again st'
  = match recognitionTimeout' with
    | Some timer => [ClearTimeout timer]
    | None => []
    end
  ∧ answer st `prefix_of` answer st'.
Proof.
  intros Hsame. cbn zeta. unfold onresultHandler, onresult. rewrite Hsame.
  assert (Hskip : ∀ (j : nat) (calls : list Action),
            applyActions clock j
              (match recognitionTimeout with
               | Some timer => [ClearTimeout timer]
               | None => []
               end ++ calls) st
            = applyActions clock
                (match recognitionTimeout with Some _ => S j | None => j end) calls st).
  { intros j calls. destruct recognitionTimeout as [timer|]; [|reflexivity].
    cbn [app applyActions]. f_equal. destruct st; reflexivity. }
  rewrite Hskip.
  destruct (truthy (finalTranscript (drop (resultIndex event) (results event)) []))
    eqn:Htruthy; cbn [andb].
  - destruct (bool_decide (finalTranscript (drop (resultIndex event) (results event)) []
                           = lastTranscript st)) eqn:Hlast; cbn [negb].
    + cbn [applyActions]. rewrite Hlast. rewrite app_nil_r.
      split; reflexivity.
    + cbn [applyActions applyAction lastTranscript answer].
      rewrite bool_decide_eq_true_2 by reflexivity. cbn [negb andb].
      rewrite app_nil_r. split; [reflexivity|]. eexists. reflexivity.
  - cbn [applyActions]. rewrite app_nil_r. split; reflexivity.
Qed.

(** X12: the calls of the handler of [onresult]: the restart timer is
    cleared when there is one; then, when the transcripts of the final
    results from [resultIndex] on, joined in their order, are not empty and
    differ from the last transcript, they become the last transcript and are
    appended to the answer after a space, and this is logged.  Interim
    results add nothing, and an event without a final result there changes
    neither the answer nor the last transcript. *)
Theorem only_final_results_are_heard (recognitionTimeout : option N)
    (event : SpeechRecognitionEvent) (st : State) :
  let heard :=
    mjoin (map transcript (List.filter isFinal (drop (resultIndex event) (results event)))) in
  onresultHandler recognitionTimeout event st
  = match recognitionTimeout with
    | Some timer => [ClearTimeout timer]
    | None => []
    end
    ++ (if truthy heard && negb (bool_decide (heard = lastTranscript st))
        then [ SetLastTranscript heard;
               AppendToAnswer (js " " ++ heard);
               AddDebugLog (js "Transcript: " ++ heard) success ]
        else []).
Proof.
  cbn zeta. unfold onresultHandler, onresult. rewrite finalTranscript_collected. reflexivity.
Qed.

(** X13: [toggleRecording] leaves [isRecording] true only when there is a
    recognition object, recording was off, and [start()] did not throw; a
    [start()] or [stop()] that throws leaves it false; without a recognition
    object it is not changed. *)
Theorem recording_flag_after_toggle (clock : nat → JsString) (k : nat)
    (thrown : option JsString) (st : State) :
  isRecording (applyActions clock k (toggleRecording thrown st) st)
  = if hasRecognition st
    then negb (isRecording st) && bool_decide (thrown = None)
    else isRecording st.
Proof.
  unfold toggleRecording.
  destruct (hasRecognition st); cbn [negb]; [|reflexivity].
  destruct (isRecording st) eqn:Hrec; destruct thrown as [t|]; reflexivity.
Qed.

(** X14: starting a recording forgets the last transcript before it calls
    [start()], so whether [start()] throws or not, a phrase already heard
    before is taken again afterwards. *)
Theorem new_recording_hears_a_phrase_again (clock : nat → JsString) (k : nat)
    (thrown : option JsString) (event : SpeechRecognitionEvent) (st : State) :
  hasRecognition st = true →
  isRecording st = false →
  let heard := finalTranscript (drop (resultIndex event) (results event)) [] in
  truthy heard = true →
  let st' := applyActions clock k (toggleRecording thrown st) st in
  lastTranscript st' = []
  ∧ onresult event st'
    = [ SetLastTranscript heard;
        AppendToAnswer (js " " ++ heard);
        AddDebugLog (js "Transcript: " ++ heard) success ].
Proof.
  intros Hrecognition Hoff heard Hheard st'.
  assert (Hlast : lastTranscript st' = []).
  { unfold st', toggleRecording. rewrite Hrecognition, Hoff.
    destruct thrown as [t|]; reflexivity. }
  split; [exact Hlast|].
  unfold onresult. fold heard. rewrite Hheard, Hlast.
  destruct heard as [|c heard']; [discriminate Hheard|].
  rewrite bool_decide_eq_false_2 by discriminate. reflexivity.
Qed.

(** X15: a speech recognition error is logged as a warning exactly for the
    codes no-speech and bad-grammar, and as an error for every other code,
    known or not. *)
Theorem speech_warnings (code : JsString) :
  (speechErrorReport code).2
  = if bool_decide (code = js "no-speech") || bool_decide (code = js "bad-grammar")
    then warning
    else error.
Proof.
  unfold speechErrorReport.
  repeat match goal with
         | |- context [bool_decide (code = ?l)] =>
             destruct (bool_decide_reflect (code = l)) as [->|?]; [reflexivity|]
         end.
  reflexivity.
Qed.

End Speech.

Lemma repeated_transcript_is_dropped_witness :
  PracticeSession.onresultHandler (Some 7%N) SessionSamples.sampleSpeech
    (PracticeSession.applyActions SessionSamples.noon 0
       (PracticeSession.onresultHandler (Some 7%N) SessionSamples.sampleSpeech
          (SessionSamples.readyState []))
       (SessionSamples.readyState []))
  = [PracticeSession.ClearTimeout 7%N].
Proof.
  destruct (repeated_transcript_is_dropped SessionSamples.noon 0 (Some 7%N) (Some 7%N)
              SessionSamples.sampleSpeech SessionSamples.sampleSpeech
              (SessionSamples.readyState []) eq_refl) as [Honly _].
  exact Honly.
Defined.

Lemma new_recording_hears_a_phrase_again_witness :
  PracticeSession.lastTranscript
    (PracticeSession.applyActions SessionSamples.noon 0
       (PracticeSession.toggleRecording None (SessionSamples.readyState []))
       (SessionSamples.readyState []))
  = [].
Proof.
  destruct (new_recording_hears_a_phrase_again SessionSamples.noon 0 None
              SessionSamples.sampleSpeech (SessionSamples.readyState [])
              eq_refl eq_refl eq_refl) as [Hlast _].
  exact Hlast.
Defined.

(** ** Loading the question *)

(** No call of the wanted shape in a list of calls that has none. *)
Ltac no_such_call H :=
  repeat (apply elem_of_cons in H as [H|H]; [discriminate H|]);
  inversion H.

(** A call that is in a list of calls. *)
Ltac find_call :=
  repeat first [ apply list_elem_of_here | apply list_elem_of_further ].

Section Loading.
Import PracticeSession.

(** X16: [fetchQuestion] always ends with [setLoading(false)], whether the
    lookup found the question, returned nothing or threw.  It sets the
    question exactly when the lookup found one, and otherwise goes back to
    the dashboard; it never does both. *)
Theorem fetch_question_ends_loading (clock : nat → JsString) (k : nat)
    (getQuestionById : JsString → JsString + option Question.t)
    (questionId : JsString) (st : State) :
  let actions := fetchQuestion getQuestionById questionId in
  last actions = Some (SetLoading false)
  ∧ loading (applyActions clock k actions st) = false
  ∧ match getQuestionById questionId with
    | inr (Some found) =>
        SetQuestion found ∈ actions
        ∧ (∀ path, Navigate path ∉ actions)
        ∧ question (applyActions clock k actions st) = Some found
    | _ =>
        Navigate (js "/dashboard") ∈ actions
        ∧ (∀ q, SetQuestion q ∉ actions)
        ∧ question (applyActions clock k actions st) = question st
    end.
Proof.
  cbn zeta. unfold fetchQuestion.
  destruct (getQuestionById questionId) as [thrown|[found|]];
    cbn; (split; [reflexivity|]); (split; [reflexivity|]).
  - split; [find_call|]. split; [|reflexivity]. intros q H. no_such_call H.
  - split; [find_call|]. split; [|reflexivity]. intros path H. no_such_call H.
  - split; [find_call|]. split; [|reflexivity]. intros q H. no_such_call H.
Qed.

End Loading.

(** ** Submitting an answer *)

Section Submitting.
Import PracticeSession.

#[local] Arguments js : simpl never.
#[local] Arguments decimal : simpl never.
#[local] Arguments trim : simpl never.
#[local] Arguments truthy : simpl never.

(** The calls of [submitAnswer] once its four checks have passed. *)
Lemma submitAnswer_started (env : SubmitEnv) (st : State) (evalType : EvaluationType)
    (u : User.t) (q : Question.t) :
  truthy (trim (answer st)) = true →
  user st = Some u →
  question st = Some q →
  submitting st = false →
  isSubmissionLocked st = false →
  TokenCheck.canEvaluate (canEvaluate env (Question.description q) (answer st)) = true →
  submitAnswer env st evalType
  = [ AddDebugLog (TokenCheck.message (canEvaluate env (Question.description q) (answer st)))
        info;
      SetSubmitting true;
      SetIsSubmissionLocked true;
      AddDebugLog
        (rocket ++ js " Starting submission with " ++ ratingModeText (ratingMode st)
         ++ js " rating mode, Gemini provider, and " ++ evaluationTypeText evalType
         ++ js " evaluation...") info ]
    ++ (tryFinally
          (tryCatch (submitBody env st u q evalType)
             (fun thrown =>
                call (AddDebugLog (js "Submission failed: " ++ thrown) error);;
                call (SetIsSubmissionLocked false)))
          [SetSubmitting false]).1.
Proof.
  intros Hanswer Huser Hquestion Hsubmitting Hlocked Htokens.
  unfold submitAnswer.
  rewrite Hanswer, Huser, Hquestion, Hsubmitting, Hlocked, Htokens. reflexivity.
Qed.

(** X17: a submission that one of the checks stops makes one call, an
    [addDebugLog], and nothing else: no state is set, nothing is stored, no
    provider is forced, there is no navigation.  The checks are the empty
    trimmed answer, the missing user or question, a submission in progress or
    locked, and the token check. *)
Theorem stopped_submission_only_logs (env : SubmitEnv) (st : State)
    (evalType : EvaluationType) :
  truthy (trim (answer st)) = false
  ∨ user st = None
  ∨ question st = None
  ∨ submitting st = true
  ∨ isSubmissionLocked st = true
  ∨ (∃ q, question st = Some q
          ∧ TokenCheck.canEvaluate (canEvaluate env (Question.description q) (answer st))
            = false) →
  ∃ message type, submitAnswer env st evalType = [AddDebugLog message type].
Proof.
  intros Hstop. unfold submitAnswer.
  destruct (truthy (trim (answer st))) eqn:Hanswer; cbn [negb]; [|eauto].
  destruct (user st) as [u|] eqn:Huser; [|eauto].
  destruct (question st) as [q|] eqn:Hquestion; [|eauto].
  destruct (submitting st) eqn:Hsubmitting; cbn [orb]; [eauto|].
  destruct (isSubmissionLocked st) eqn:Hlocked; [eauto|].
  destruct (TokenCheck.canEvaluate (canEvaluate env (Question.description q) (answer st)))
    eqn:Htokens; cbn [negb]; [|eauto].
  exfalso.
  destruct Hstop as [H|[H|[H|[H|[H|(q' & Hq' & H)]]]]]; try discriminate H.
  injection Hq' as <-. congruence.
Qed.

(** X18: an answer made of white space only, spaces, tabs, line breaks and
    the other white space of JavaScript, is turned away with "Please provide
    an answer" before anything else is looked at, and the submit button is
    disabled for it. *)
Theorem blank_answer_is_turned_away (env : SubmitEnv) (st : State)
    (evalType : EvaluationType) :
  Forall (λ c, isWhiteSpace c = true) (answer st) →
  submitAnswer env st evalType = [AddDebugLog (js "Please provide an answer") error]
  ∧ submitDisabled st = true.
Proof.
  intros Hblank. apply trim_falsy in Hblank.
  unfold submitAnswer, submitDisabled. rewrite Hblank. cbn [negb].
  split; [reflexivity|]. destruct (submitting st); reflexivity.
Qed.


(** X20: a submission that passes the checks and in which neither
    [recognition.stop()] nor a [localStorage.setItem] throws ends with the
    navigation to the page of the response it stored and then
    [setSubmitting(false)].  Before that it has forced the gemini provider
    and written the response and the question to the storage; the stored
    answer is the trimmed one and the stored response time is the whole
    seconds since the page was opened.  The lock is never released.  All of
    this holds whether [saveEvaluation] succeeds or rejects. *)
Theorem completed_submission (env : SubmitEnv) (st : State) (evalType : EvaluationType)
    (u : User.t) (q : Question.t) :
  truthy (trim (answer st)) = true →
  user st = Some u →
  question st = Some q →
  submitting st = false →
  isSubmissionLocked st = false →
  TokenCheck.canEvaluate (canEvaluate env (Question.description q) (answer st)) = true →
  (isRecording st && hasRecognition st = true → stopThrown env = None) →
  responseItemThrown env = None →
  questionItemThrown env = None →
  let actions := submitAnswer env st evalType in
  ∃ (responseData : ResponseData.t) (earlier : list Action),
    actions
    = earlier ++ [Navigate (js "/evaluation/" ++ ResponseData.id responseData);
                  SetSubmitting false]
    ∧ ForceProvider force_gemini ∈ earlier
    ∧ LocalStorageSetItem (js "current_response") (StoredResponse responseData) None
      ∈ earlier
    ∧ LocalStorageSetItem (js "current_question") (StoredQuestion q) None ∈ earlier
    ∧ ResponseData.answer_text responseData = trim (answer st)
    ∧ ResponseData.response_time_seconds responseData
      = ((nowForResponseTime env - startTime st) / 1000)%Z
    ∧ (∀ a, a ∈ earlier → a ≠ SetIsSubmissionLocked false ∧ ∀ path, a ≠ Navigate path).
Proof.
  intros Hanswer Huser Hquestion Hsubmitting Hlocked Htokens Hstop Hfirst Hsecond.
  cbn zeta. rewrite (submitAnswer_started env st evalType u q) by assumption.
  exists (responseDataOf env st u q evalType
            ((nowForResponseTime env - startTime st) / 1000)%Z).
  unfold submitBody. rewrite Hfirst, Hsecond.
  destruct (isRecording st && hasRecognition st);
    [rewrite (Hstop eq_refl)|];
    destruct (saveThrown env) as [rejected|];
    cbn;
    (match goal with
     | |- ∃ earlier, ?l = _ ∧ _ => exists (take (length l - 2) l)
     end;
     cbn [length Nat.sub take];
     split; [reflexivity|];
     split; [find_call|]; split; [find_call|]; split; [find_call|];
     split; [reflexivity|]; split; [reflexivity|];
     intros a Ha;
     repeat (apply elem_of_cons in Ha as [->|Ha];
             [split; [discriminate | intros path; discriminate]|]);
     inversion Ha).
Qed.

(** X21: when the body of a submission throws, in [recognition.stop()] or in
    a [localStorage.setItem], the calls end with the log of the failure, the
    release of the lock and [setSubmitting(false)], and there is no
    navigation. *)
Theorem failed_submission_releases_the_lock (env : SubmitEnv) (st : State)
    (evalType : EvaluationType) (u : User.t) (q : Question.t) (thrown : JsString) :
  truthy (trim (answer st)) = true →
  user st = Some u →
  question st = Some q →
  submitting st = false →
  isSubmissionLocked st = false →
  TokenCheck.canEvaluate (canEvaluate env (Question.description q) (answer st)) = true →
  (submitBody env st u q evalType).2 = inl thrown →
  let actions := submitAnswer env st evalType in
  (∃ earlier,
     actions
     = earlier ++ [AddDebugLog (js "Submission failed: " ++ thrown) error;
                   SetIsSubmissionLocked false;
                   SetSubmitting false])
  ∧ ∀ path, Navigate path ∉ actions.
Proof.
  intros Hanswer Huser Hquestion Hsubmitting Hlocked Htokens Hthrown.
  cbn zeta. rewrite (submitAnswer_started env st evalType u q) by assumption.
  revert Hthrown. unfold submitBody.
  destruct (isRecording st && hasRecognition st);
    destruct (stopThrown env) as [stopped|];
    destruct (responseItemThrown env) as [first|];
    destruct (questionItemThrown env) as [second|];
    destruct (saveThrown env) as [rejected|];
    cbn; intros Hthrown; try discriminate Hthrown;
    injection Hthrown as <-;
    (split; [|intros path H; no_such_call H]).
  all: match goal with
       | |- ∃ earlier, ?l = _ =>
           exists (take (length l - 3) l); reflexivity
       end.
Qed.

(** X22: there is no rollback.  When the response has been written and the
    write of the question throws, the response stays in the storage although
    the submission is reported as failed and the page is unlocked again. *)
Theorem response_stays_stored_when_question_write_fails (clock : nat → JsString)
    (k : nat) (env : SubmitEnv) (st : State) (evalType : EvaluationType)
    (u : User.t) (q : Question.t) (thrown : JsString) :
  truthy (trim (answer st)) = true →
  user st = Some u →
  question st = Some q →
  submitting st = false →
  isSubmissionLocked st = false →
  TokenCheck.canEvaluate (canEvaluate env (Question.description q) (answer st)) = true →
  (isRecording st && hasRecognition st = true → stopThrown env = None) →
  responseItemThrown env = None →
  questionItemThrown env = Some thrown →
  let actions := submitAnswer env st evalType in
  (∃ responseData,
     LocalStorageSetItem (js "current_response") (StoredResponse responseData) None
     ∈ actions)
  ∧ AddDebugLog (js "Submission failed: " ++ thrown) error ∈ actions
  ∧ isSubmissionLocked (applyActions clock k actions st) = false.
Proof.
  intros Hanswer Huser Hquestion Hsubmitting Hlocked Htokens Hstop Hfirst Hsecond.
  cbn zeta. rewrite (submitAnswer_started env st evalType u q) by assumption.
  unfold submitBody. rewrite Hfirst, Hsecond.
  destruct (isRecording st && hasRecognition st);
    [rewrite (Hstop eq_refl)|];
    cbn; (split; [eexists; find_call|]); (split; [find_call | reflexivity]).
Qed.

(** X23: after a completed submission the page does not submit again.  On
    the state the calls of the submission leave, [submitAnswer] only logs
    that a submission is in progress, the button's handler makes no call, and
    the button is disabled, whatever the outside would answer. *)
Theorem no_second_submission (clock : nat → JsString) (k : nat)
    (env env' : SubmitEnv) (st : State) (evalType evalType' : EvaluationType)
    (u : User.t) (q : Question.t) :
  truthy (trim (answer st)) = true →
  user st = Some u →
  question st = Some q →
  submitting st = false →
  isSubmissionLocked st = false →
  TokenCheck.canEvaluate (canEvaluate env (Question.description q) (answer st)) = true →
  (isRecording st && hasRecognition st = true → stopThrown env = None) →
  responseItemThrown env = None →
  questionItemThrown env = None →
  let st' := applyActions clock k (submitAnswer env st evalType) st in
  submitAnswer env' st' evalType'
  = [AddDebugLog (js "Submission already in progress") info]
  ∧ onSubmitClick env' st' = []
  ∧ submitDisabled st' = true.
Proof.
  intros Hanswer Huser Hquestion Hsubmitting Hlocked Htokens Hstop Hfirst Hsecond.
  cbn zeta. rewrite (submitAnswer_started env st evalType u q) by assumption.
  unfold submitBody. rewrite Hfirst, Hsecond.
  destruct (isRecording st && hasRecognition st);
    [rewrite (Hstop eq_refl)|];
    destruct (saveThrown env) as [rejected|];
    cbn;
    unfold submitAnswer, onSubmitClick, submitDisabled;
    cbn [applyAction answer user question submitting isSubmissionLocked];
    rewrite Hanswer, Huser, Hquestion; cbn [negb orb];
    (split; [reflexivity|]); (split; [reflexivity|]);
    reflexivity.
Qed.

End Submitting.

(** ** The submission properties on sample sessions *)

Lemma stopped_submission_only_logs_witness :
  ∃ message type,
    PracticeSession.submitAnswer SessionSamples.quietEnv (SessionSamples.readyState [])
      simple
    = [PracticeSession.AddDebugLog message type].
Proof.
  apply stopped_submission_only_logs. left. reflexivity.
Defined.

Lemma blank_answer_is_turned_away_witness :
  PracticeSession.submitAnswer SessionSamples.quietEnv
    (SessionSamples.readyState [0x20; 0x9; 0xA0; 0xA]%N) detailed
  = [PracticeSession.AddDebugLog (js "Please provide an answer") PracticeSession.error]
  ∧ PracticeSession.submitDisabled (SessionSamples.readyState [0x20; 0x9; 0xA0; 0xA]%N)
    = true.
Proof.
  apply blank_answer_is_turned_away. repeat constructor.
Defined.

Lemma completed_submission_witness :
  ∃ (responseData : PracticeSession.ResponseData.t) (earlier : list PracticeSession.Action),
    PracticeSession.submitAnswer SessionSamples.quietEnv
      (SessionSamples.readyState (js " my answer ")) simple
    = earlier
      ++ [PracticeSession.Navigate
            (js "/evaluation/" ++ PracticeSession.ResponseData.id responseData);
          PracticeSession.SetSubmitting false]
    ∧ PracticeSession.ResponseData.answer_text responseData = js "my answer"
    ∧ PracticeSession.ResponseData.response_time_seconds responseData = 42%Z.
Proof.
  destruct (completed_submission SessionSamples.quietEnv
              (SessionSamples.readyState (js " my answer ")) simple
              SessionSamples.sampleUser SessionSamples.sampleQuestion
              eq_refl eq_refl eq_refl eq_refl eq_refl eq_refl (fun _ => eq_refl)
              eq_refl eq_refl)
    as (responseData & earlier & Hcalls & _ & _ & _ & Hanswer & Htime & _).
  exists responseData, earlier. split; [exact Hcalls|]. split; [exact Hanswer | exact Htime].
Defined.

Lemma failed_submission_releases_the_lock_witness :
  ∃ earlier,
    PracticeSession.submitAnswer SessionSamples.fullStorageEnv
      (SessionSamples.readyState (js "my answer")) simple
    = earlier
      ++ [PracticeSession.AddDebugLog
            (js "Submission failed: " ++ js "The quota has been exceeded.")
            PracticeSession.error;
          PracticeSession.SetIsSubmissionLocked false;
          PracticeSession.SetSubmitting false].
Proof.
  destruct (failed_submission_releases_the_lock SessionSamples.fullStorageEnv
              (SessionSamples.readyState (js "my answer")) simple
              SessionSamples.sampleUser SessionSamples.sampleQuestion
              (js "The quota has been exceeded.")
              eq_refl eq_refl eq_refl eq_refl eq_refl eq_refl eq_refl)
    as [Hcalls _].
  exact Hcalls.
Defined.

Lemma response_stays_stored_when_question_write_fails_witness :
  PracticeSession.isSubmissionLocked
    (PracticeSession.applyActions SessionSamples.noon 0
       (PracticeSession.submitAnswer SessionSamples.fullStorageEnv
          (SessionSamples.readyState (js "my answer")) simple)
       (SessionSamples.readyState (js "my answer")))
  = false.
Proof.
  destruct (response_stays_stored_when_question_write_fails SessionSamples.noon 0
              SessionSamples.fullStorageEnv
              (SessionSamples.readyState (js "my answer")) simple
              SessionSamples.sampleUser SessionSamples.sampleQuestion
              (js "The quota has been exceeded.")
              eq_refl eq_refl eq_refl eq_refl eq_refl eq_refl (fun _ => eq_refl)
              eq_refl eq_refl)
    as (_ & _ & Hunlocked).
  exact Hunlocked.
Defined.

Lemma no_second_submission_witness :
  PracticeSession.onSubmitClick SessionSamples.fullStorageEnv
    (PracticeSession.applyActions SessionSamples.noon 0
       (PracticeSession.submitAnswer SessionSamples.quietEnv
          (SessionSamples.readyState (js "my answer")) simple)
       (SessionSamples.readyState (js "my answer")))
  = [].
Proof.
  destruct (no_second_submission SessionSamples.noon 0
              SessionSamples.quietEnv SessionSamples.fullStorageEnv
              (SessionSamples.readyState (js "my answer")) simple detailed
              SessionSamples.sampleUser SessionSamples.sampleQuestion
              eq_refl eq_refl eq_refl eq_refl eq_refl eq_refl (fun _ => eq_refl)
              eq_refl eq_refl)
    as (_ & Hclick & _).
  exact Hclick.
Defined.
